(** * nanopolish_slurm_wrapper.py: a shallow embedding and its properties

    The wrapper partitions an assembly into ranges, submits one SLURM job per
    range, polls the queue until none of its jobs is left, writes a file of Ns
    for every range whose job left no output, and merges the per-range files.

    Text is modelled as [string]: the bytes of the UTF-8 encoding of the Python
    value.  Every separator, prefix and pattern the script uses is ASCII, so
    searching and splitting on the bytes agrees with Python's behaviour on code
    points.  Everything outside the process (shell commands, the scheduler, the
    clock, the files the jobs leave behind) is an oracle in a [World] record;
    what the process does to the outside is recorded in a trace of events. *)

From Stdlib Require Import Ascii.
From stdpp Require Import gmap strings list fin_maps sorting pretty.

Local Open Scope Z_scope.

(** ** Python text primitives *)
Module Py.

Definition LF : ascii := "010"%char.
Definition CR : ascii := "013"%char.
Definition NUL : ascii := "000"%char.

Definition code (c : ascii) : N := N_of_ascii c.

Fixpoint chars (s : string) : list ascii :=
  match s with
  | EmptyString => []
  | String c s' => c :: chars s'
  end.

Fixpoint of_chars (l : list ascii) : string :=
  match l with
  | [] => EmptyString
  | c :: l' => String c (of_chars l')
  end.

(** [s.startswith(p)] *)
Fixpoint startswith (p s : string) : bool :=
  match p, s with
  | EmptyString, _ => true
  | String a p', String b s' => bool_decide (a = b) && startswith p' s'
  | String _ _, EmptyString => false
  end.

(** [s.endswith(p)] *)
Definition endswith (p s : string) : bool :=
  startswith (String.rev p) (String.rev s).

(** [p in s] for two [str] values: [p] occurs as a contiguous substring. *)
Fixpoint contains (p s : string) : bool :=
  startswith p s ||
  match s with
  | EmptyString => false
  | String _ s' => contains p s'
  end.

(** [s.split(sep)] for a non-empty separator; [skip] counts the characters
    of a separator just matched that are still to be dropped. *)
Fixpoint split_go (sep s : string) (skip : nat) : list string :=
  match s with
  | EmptyString => [EmptyString]
  | String c s' =>
      match skip with
      | S k => split_go sep s' k
      | O =>
          if startswith sep s
          then EmptyString :: split_go sep s' (Nat.pred (String.length sep))
          else match split_go sep s' O with
               | h :: t => String c h :: t
               | [] => [String c EmptyString]
               end
      end
  end.

Definition split (sep s : string) : list string := split_go sep s O.

(** [parts[0]] and [parts[-1]] on the list a [split] returns (never empty). *)
Definition first (parts : list string) : string := hd EmptyString parts.
Definition last (parts : list string) : string := List.last parts EmptyString.

(** [sep.join(parts)] *)
Fixpoint join (sep : string) (parts : list string) : string :=
  match parts with
  | [] => EmptyString
  | [x] => x
  | x :: rest => x +:+ sep +:+ join sep rest
  end.

(** [s * n]: the empty string when [n] is zero or negative. *)
Definition repeat (s : string) (n : Z) : string :=
  Nat.iter (Z.to_nat n) (String.append s) EmptyString.

Definition snoc (s : string) (c : ascii) : string := s +:+ String c EmptyString.

(** [bytes.splitlines()]: breaks at LF, CR and CR LF only; no trailing
    empty line. *)
Fixpoint bytes_splitlines_go (s cur : string) : list string :=
  match s with
  | EmptyString => if bool_decide (cur = EmptyString) then [] else [cur]
  | String c s' =>
      if bool_decide (c = LF) then cur :: bytes_splitlines_go s' EmptyString
      else if bool_decide (c = CR) then
        cur :: match s' with
               | String c' s'' =>
                   if bool_decide (c' = LF)
                   then bytes_splitlines_go s'' EmptyString
                   else bytes_splitlines_go s' EmptyString
               | EmptyString => bytes_splitlines_go s' EmptyString
               end
      else bytes_splitlines_go s' (snoc cur c)
  end.

Definition bytes_splitlines (s : string) : list string :=
  bytes_splitlines_go s EmptyString.

(** One-byte line boundaries of [str.splitlines()]: LF, VT, FF, CR, FS, GS,
    RS. *)
Definition is_linebreak1 (c : ascii) : bool :=
  let n := code c in
  ((10 <=? n) && (n <=? 13) || (28 <=? n) && (n <=? 30))%N.

(** [str.splitlines()] on UTF-8 text: also breaks at U+0085 (C2 85), U+2028
    and U+2029 (E2 80 A8, E2 80 A9). *)
Fixpoint str_splitlines_go (s cur : string) : list string :=
  match s with
  | EmptyString => if bool_decide (cur = EmptyString) then [] else [cur]
  | String c s' =>
      if bool_decide (c = CR) then
        cur :: match s' with
               | String c' s'' =>
                   if bool_decide (c' = LF)
                   then str_splitlines_go s'' EmptyString
                   else str_splitlines_go s' EmptyString
               | EmptyString => str_splitlines_go s' EmptyString
               end
      else if is_linebreak1 c then cur :: str_splitlines_go s' EmptyString
      else
        match s' with
        | String c1 s1 =>
            if (code c =? 194)%N && (code c1 =? 133)%N
            then cur :: str_splitlines_go s1 EmptyString
            else
              match s1 with
              | String c2 s2 =>
                  if (code c =? 226)%N && (code c1 =? 128)%N
                     && ((code c2 =? 168)%N || (code c2 =? 169)%N)
                  then cur :: str_splitlines_go s2 EmptyString
                  else str_splitlines_go s' (snoc cur c)
              | EmptyString => str_splitlines_go s' (snoc cur c)
              end
        | EmptyString => str_splitlines_go s' (snoc cur c)
        end
  end.

Definition str_splitlines (s : string) : list string :=
  str_splitlines_go s EmptyString.

(** [bytes.decode()] with the default codec: the bytes themselves when they
    are well-formed UTF-8, [UnicodeDecodeError] otherwise. *)
Definition cont (c : ascii) : bool := ((128 <=? code c) && (code c <=? 191))%N.
Definition between (lo hi : N) (c : ascii) : bool :=
  ((lo <=? code c) && (code c <=? hi))%N.

Fixpoint utf8_valid (s : string) : bool :=
  match s with
  | EmptyString => true
  | String c0 s0 =>
      if (code c0 <? 128)%N then utf8_valid s0
      else
        match s0 with
        | String c1 s1 =>
            if between 194 223 c0 then cont c1 && utf8_valid s1
            else
              match s1 with
              | String c2 s2 =>
                  if between 224 239 c0 then
                    (if (code c0 =? 224)%N then between 160 191 c1
                     else if (code c0 =? 237)%N then between 128 159 c1
                     else cont c1)
                    && cont c2 && utf8_valid s2
                  else
                    match s2 with
                    | String c3 s3 =>
                        between 240 244 c0
                        && (if (code c0 =? 240)%N then between 144 191 c1
                            else if (code c0 =? 244)%N then between 128 143 c1
                            else cont c1)
                        && cont c2 && cont c3 && utf8_valid s3
                    | EmptyString => false
                    end
              | EmptyString => false
              end
        | EmptyString => false
        end
  end.

Definition decode (b : string) : option string :=
  if utf8_valid b then Some b else None.

(** Whitespace [int()] strips, within ASCII: TAB..CR, FS..US and space. *)
Definition is_space (c : ascii) : bool :=
  let n := code c in
  ((9 <=? n) && (n <=? 13) || (28 <=? n) && (n <=? 32))%N.

Fixpoint lstrip (s : string) : string :=
  match s with
  | EmptyString => EmptyString
  | String c s' => if is_space c then lstrip s' else s
  end.

Definition strip (s : string) : string :=
  String.rev (lstrip (String.rev (lstrip s))).

Definition digit (c : ascii) : option Z :=
  let n := code c in
  if ((48 <=? n) && (n <=? 57))%N then Some (Z.of_N n - 48) else None.

(** The digits of an integer literal: decimal digits, single underscores
    allowed between two digits. *)
Fixpoint int_digits (s : string) (acc : Z) (after_digit : bool) : option Z :=
  match s with
  | EmptyString => if after_digit then Some acc else None
  | String c s' =>
      match digit c with
      | Some d => int_digits s' (10 * acc + d) true
      | None =>
          if bool_decide (c = "_"%char) && after_digit
          then int_digits s' acc false
          else None
      end
  end.

(** [int(s)] in base ten: [None] stands for [ValueError].  Digits and
    whitespace outside ASCII, which Python also accepts, are rejected here,
    and the limit newer interpreters put on the number of digits is left
    out. *)
Definition int (s : string) : option Z :=
  match strip s with
  | String "+" r => int_digits r 0 false
  | String "-" r => Z.opp <$> int_digits r 0 false
  | t => int_digits t 0 false
  end.

(** [str(n)] for an integer. *)
Definition str (n : Z) : string := pretty n.

End Py.

(** ** The outside world *)

(** Positional arguments: the five paths as [os.path.abspath] returns them
    (absolute, normalised) and the thread count as typed. *)
Record Args := {
  assembly_arg : string;
  reads_arg : string;
  fast5_arg : string;
  output_arg : string;
  nanopolish_arg : string;
  threads_arg : string
}.

(** What the environment answers during one run: the process id, the
    directories that exist when it starts, the exit status (and output) of
    each external command, with the submissions and the queue queries numbered
    from 0, the seconds elapsed as printed after each query, and the files of
    the working directory at the moment the wait loop ends.  The working
    directory is fresh and flat: its entries are plain files, their names hold
    no slash.  Changing into it, writing a file under a plain name and
    removing the directory in the end are taken to succeed. *)
Record World := {
  getpid : N;
  host_dirs : gset string;
  makerange_out : Z * string;
  align_rc : Z;
  samtools_index_rc : Z;
  nanopolish_index_rc : Z;
  sbatch_rc : nat → Z;
  squeue_out : nat → Z * string;
  elapsed : nat → Z;
  job_files : gmap string string;
  merge_rc : Z
}.

(** What the process does to the outside, in the order it does it: text
    printed, directories made, entered and removed, shell commands run (the
    merge command with the file list its pattern expands to), sleeps, and
    files written. *)
Inductive event :=
  | Stdout (text : string)
  | Mkdir (path : string)
  | Chdir (path : string)
  | Shell (command : string)
  | ShellGlob (command : string) (expansion : list string)
  | Sleep (seconds : Z)
  | WriteFile (name content : string)
  | Rmtree (path : string).

(** The exceptions that can escape the script. *)
Inductive exn :=
  | ValueError
  | UnicodeDecodeError
  | FileExistsError (path : string)
  | FileNotFoundError (path : string)
  | CalledProcessError (returncode : Z) (command : string).

(** How a computation ends: it returns, an exception escapes, or the model's
    fuel runs out while the wait loop is still polling. *)
Inductive result (A : Type) :=
  | Returned (a : A)
  | Raised (e : exn)
  | Polling.
Arguments Returned {A} a.
Arguments Raised {A} e.
Arguments Polling {A}.

(** A computation: the trace of what it did and how it ended.  Sequencing
    appends the traces and stops at the first computation that does not
    return. *)
Definition M (A : Type) : Type := list event * result A.

Global Instance M_ret : MRet M := λ A a, ([], Returned a).
Global Instance M_bind : MBind M := λ A B f m,
  match m with
  | (t, Returned a) => let '(t', r) := f a in (t ++ t', r)
  | (t, Raised e) => (t, Raised e)
  | (t, Polling) => (t, Polling)
  end.

Definition emit (e : event) : M unit := ([e], Returned tt).
Definition raise {A} (e : exn) : M A := ([], Raised e).
Definition trace {A} (m : M A) : list event := m.1.
Definition outcome {A} (m : M A) : result A := m.2.

(** The status the interpreter exits with: 0 when [main] returns, 1 when an
    exception escapes it. *)
Definition exit_status {A} (r : result A) : option Z :=
  match r with
  | Returned _ => Some 0
  | Raised _ => Some 1
  | Polling => None
  end.

Definition nl : string := String Py.LF EmptyString.

(** [print(text)] *)
Definition print (text : string) : M unit := emit (Stdout (text +:+ nl)).

(** [subprocess.run(command, shell=True, check=True)] *)
Definition run (command : string) (rc : Z) : M unit :=
  emit (Shell command);;
  if bool_decide (rc = 0) then mret tt else raise (CalledProcessError rc command).

(** [subprocess.check_output(command, shell=True)] *)
Definition check_output (command : string) (answer : Z * string) : M string :=
  emit (Shell command);;
  if bool_decide (answer.1 = 0) then mret answer.2
  else raise (CalledProcessError answer.1 command).

Definition decode (b : string) : M string :=
  match Py.decode b with
  | Some s => mret s
  | None => raise UnicodeDecodeError
  end.

Definition int (s : string) : M Z :=
  match Py.int s with
  | Some n => mret n
  | None => raise ValueError
  end.

(** ** Paths and the working directory *)
Module Os.

(** [os.path.join(a, b)] *)
Definition path_join (a b : string) : string :=
  if Py.startswith "/" b then b
  else if bool_decide (a = EmptyString) || Py.endswith "/" a then a +:+ b
  else a +:+ "/" +:+ b.

(** [os.path.dirname] of a normalised path. *)
Definition dirname (p : string) : string :=
  let head := Py.join "/" (removelast (Py.split "/" p)) in
  if bool_decide (head = EmptyString) && Py.startswith "/" p then "/" else head.

(** [os.mkdir(path)]: not recursive, and refuses an existing path. *)
Definition mkdir (host : gset string) (path : string) : M unit :=
  if bool_decide (path ∈ host) then raise (FileExistsError path)
  else if bool_decide (dirname path ∈ host) then emit (Mkdir path)
  else raise (FileNotFoundError path).

(** A name that denotes an entry of the flat working directory. *)
Definition plain (name : string) : bool :=
  negb (Py.contains "/" name) && negb (Py.contains (String Py.NUL EmptyString) name).

(** [os.path.isfile(name)], relative to the working directory. *)
Definition isfile (ws : gmap string string) (name : string) : bool :=
  plain name && bool_decide (is_Some (ws !! name)).

(** [open(name, 'wt')], the writes, and the close: a NUL in the name is a
    [ValueError], a slash leads into a directory that does not exist. *)
Definition write_text (ws : gmap string string) (name content : string)
  : M (gmap string string) :=
  if Py.contains (String Py.NUL EmptyString) name then raise ValueError
  else if Py.contains "/" name then raise (FileNotFoundError name)
  else emit (WriteFile name content);; mret (<[name := content]> ws).

(** What the shell makes of [polished.*.fa]: the matching names of the
    directory listing, sorted; the order is taken to be byte order, the
    collation of the C locale. *)
Definition matches_polished (name : string) : bool :=
  Py.startswith "polished." name && Py.endswith ".fa" name
  && (12 <=? String.length name)%nat.

Definition glob_polished (listing : list string) : list string :=
  merge_sort String.le (List.filter matches_polished listing).

(** An unmatched pattern is passed on as it is. *)
Definition expand_polished (listing : list string) : list string :=
  match glob_polished listing with
  | [] => ["polished.*.fa"]
  | names => names
  end.

Definition listdir (ws : gmap string string) : list string := elements (dom ws).

End Os.

(** ** The script *)

(** A double quote, for the command lines. *)
Definition dq : string := String "034"%char EmptyString.

Definition fasta_name (polish_range : string) : string :=
  "polished." +:+ polish_range +:+ ".fa".
Arguments fasta_name : simpl never.

Definition job_prefix_of (pid : string) : string := "Nanopolish_" +:+ pid +:+ "_".

Definition get_nanopolish_ranges (w : World)
    (nanopolish_makerange assembly_filename : string) : M (list string) :=
  let command := "python " +:+ nanopolish_makerange +:+ " " +:+ assembly_filename in
  range_out ← check_output command (makerange_out w);
  mapM decode (Py.bytes_splitlines range_out).

Definition squeue_command : string :=
  "squeue -o " +:+ dq +:+ "%.70j %.8i %.10T" +:+ dq.

(** The lines of a queue listing that contain the prefix. *)
Definition remaining_in (job_prefix listing : string) : list string :=
  List.filter (Py.contains job_prefix) (Py.str_splitlines listing).

(** The [k]-th query of the run. *)
Definition get_remaining_nanopolish_jobs (w : World) (k : nat)
    (job_prefix : string) : M nat :=
  out ← check_output squeue_command (squeue_out w k);
  current_jobs ← decode out;
  mret (length (remaining_in job_prefix current_jobs)).

Definition variants_command (nanopolish_exec read_filename assembly_filename
    polish_range : string) : string :=
  nanopolish_exec +:+ " variants --consensus polished." +:+ polish_range
  +:+ ".fa -w " +:+ polish_range +:+ " -r " +:+ read_filename
  +:+ " -b reads.sorted.bam -g " +:+ assembly_filename
  +:+ " -t 2 --min-candidate-frequency 0.1".

Definition sbatch_command (job_name variants : string) : string :=
  "sbatch -p sysgen --nodes=1 --job-name=" +:+ job_name
  +:+ " --ntasks=1 --cpus-per-task=2 --mem=4096 --time=0-4:0:00 --wrap "
  +:+ dq +:+ variants +:+ dq.

(** The submission loop; [i] numbers the submissions of the run. *)
Fixpoint submit_jobs (w : World) (nanopolish_exec read_filename
    assembly_filename job_prefix : string) (polish_ranges : list string)
    (i : nat) : M unit :=
  match polish_ranges with
  | [] => mret tt
  | polish_range :: rest =>
      let job_name := job_prefix +:+ polish_range in
      let command :=
        sbatch_command job_name
          (variants_command nanopolish_exec read_filename assembly_filename
             polish_range) in
      print command;;
      run command (sbatch_rc w i);;
      submit_jobs w nanopolish_exec read_filename assembly_filename job_prefix
        rest (S i)
  end.

Definition done_message : string := "All Nanopolish jobs are done!".

Definition waiting_message (elapsed_time : Z) (remaining_jobs : nat) : string :=
  "Waiting for Nanopolish jobs to finish... (" +:+ Py.str elapsed_time
  +:+ " sec elapsed, " +:+ Py.str (Z.of_nat remaining_jobs) +:+ " jobs remaining)".

(** The wait loop, from its [k]-th round on; one unit of fuel per round. *)
Fixpoint wait_for_jobs (w : World) (job_prefix : string) (fuel k : nat) : M unit :=
  match fuel with
  | O => ([], Polling)
  | S fuel' =>
      emit (Sleep 60);;
      remaining_jobs ← get_remaining_nanopolish_jobs w k job_prefix;
      if bool_decide (remaining_jobs = O) then print done_message
      else
        print (waiting_message (elapsed w k) remaining_jobs);;
        wait_for_jobs w job_prefix fuel' (S k)
  end.

(** The body of the loop over the incomplete ranges. *)
Definition write_placeholder (ws : gmap string string) (incomplete_range : string)
    : M (gmap string string) :=
  let fasta_filename := fasta_name incomplete_range in
  start ← int (Py.first (Py.split "-" (Py.last (Py.split ":" incomplete_range))));
  end_ ← int (Py.last (Py.split "-" incomplete_range));
  let range_size := end_ - start in
  Os.write_text ws fasta_filename
    (">" +:+ incomplete_range +:+ nl +:+ Py.repeat "N" range_size +:+ nl).

Fixpoint write_placeholders (ws : gmap string string)
    (incomplete_ranges : list string) : M (gmap string string) :=
  match incomplete_ranges with
  | [] => mret ws
  | incomplete_range :: rest =>
      ws' ← write_placeholder ws incomplete_range;
      write_placeholders ws' rest
  end.

Definition incomplete (ws : gmap string string) (polish_ranges : list string)
    : list string :=
  List.filter (λ x, negb (Os.isfile ws (fasta_name x))) polish_ranges.

(** "Make empty ranges, if necessary". *)
Definition fill_incomplete (ws : gmap string string) (polish_ranges : list string)
    : M (gmap string string) :=
  let incomplete_ranges := incomplete ws polish_ranges in
  (if bool_decide (incomplete_ranges = []) then mret tt
   else print ("WARNING: some ranges did not complete: "
               +:+ Py.join ", " incomplete_ranges));;
  write_placeholders ws incomplete_ranges.

Definition merge_command (nanopolish_merge set_name : string) : string :=
  let final_assembly := "../" +:+ set_name +:+ ".fasta" in
  "python " +:+ nanopolish_merge +:+ " polished.*.fa > " +:+ final_assembly.

(** "Merge results together": the shell expands the pattern in the working
    directory before the merge tool starts. *)
Definition merge_results (w : World) (ws : gmap string string)
    (nanopolish_merge set_name : string) : M unit :=
  let command := merge_command nanopolish_merge set_name in
  emit (ShellGlob command (Os.expand_polished (Os.listdir ws)));;
  if bool_decide (merge_rc w = 0) then mret tt
  else raise (CalledProcessError (merge_rc w) command).

Definition main (w : World) (argv : Args) (fuel : nat) : M unit :=
  let assembly_filename := assembly_arg argv in
  let read_filename := reads_arg argv in
  let raw_fast5_dir := fast5_arg argv in
  let output_dir := output_arg argv in
  let nanopolish_dir := nanopolish_arg argv in
  threads ← int (threads_arg argv);
  let nanopolish_exec := Os.path_join nanopolish_dir "nanopolish" in
  let nanopolish_makerange :=
    Os.path_join (Os.path_join nanopolish_dir "scripts") "nanopolish_makerange.py" in
  let nanopolish_merge :=
    Os.path_join (Os.path_join nanopolish_dir "scripts") "nanopolish_merge.py" in
  let set_name := Py.first (Py.split ".fasta" (Py.last (Py.split "/" assembly_filename))) in
  print (nl +:+ "Preparing to run Nanopolish for " +:+ set_name);;
  let pid := Py.str (Z.of_N (getpid w)) in
  let temp_dir := Os.path_join output_dir (pid +:+ "_temp_dir") in
  Os.mkdir (host_dirs w) temp_dir;;
  print ("Moving into " +:+ temp_dir);;
  emit (Chdir temp_dir);;
  emit (Stdout "Getting ranges: ");;
  polish_ranges ← get_nanopolish_ranges w nanopolish_makerange assembly_filename;
  print (Py.join ", " polish_ranges);;
  print "Aligning reads";;
  run ("minimap2 -x map10k -a -t " +:+ Py.str threads +:+ " " +:+ assembly_filename
       +:+ " " +:+ read_filename
       +:+ " | samtools sort -o reads.sorted.bam -T reads.tmp -") (align_rc w);;
  run "samtools index reads.sorted.bam" (samtools_index_rc w);;
  print "Running nanopolish index:";;
  run (nanopolish_exec +:+ " index -d " +:+ raw_fast5_dir +:+ " " +:+ read_filename)
      (nanopolish_index_rc w);;
  print "Launching SLURM jobs:";;
  let job_prefix := job_prefix_of pid in
  submit_jobs w nanopolish_exec read_filename assembly_filename job_prefix
    polish_ranges O;;
  wait_for_jobs w job_prefix fuel O;;
  ws ← fill_incomplete (job_files w) polish_ranges;
  merge_results w ws nanopolish_merge set_name;;
  emit (Chdir "..");;
  emit (Rmtree temp_dir).

(** ** Specification vocabulary: placeholders and the merge *)

Definition range_start (x : string) : option Z :=
  Py.int (Py.first (Py.split "-" (Py.last (Py.split ":" x)))).

Definition range_end (x : string) : option Z :=
  Py.int (Py.last (Py.split "-" x)).

Definition placeholder (x : string) (range_size : Z) : string :=
  ">" +:+ x +:+ nl +:+ Py.repeat "N" range_size +:+ nl.

(** Modelled from the spec: the merge tool [nanopolish_merge.py] is not part
    of this repository; the spec gives it as "merger(list of per-region files)
    -> single concatenated file".  It is taken to write the contents of the
    files it is handed one after the other, in the order of its arguments. *)
Definition merge_tool (ws : gmap string string) (inputs : list string) : string :=
  foldr (λ name rest, default EmptyString (ws !! name) +:+ rest) EmptyString inputs.

(** The identifiers on the header lines of an assembly, top to bottom. *)
Definition record_ids (assembly : string) : list string :=
  omap (λ line, match line with
                | String ">" x => Some x
                | _ => None
                end) (Py.str_splitlines assembly).

Definition contig_of (x : string) : string :=
  Py.join ":" (removelast (Py.split ":" x)).

(** Records of one contig appear by ascending start coordinate. *)
Definition coordinate_order (ids : list string) : Prop :=
  ∀ i j x y, (i < j)%nat → ids !! i = Some x → ids !! j = Some y →
    contig_of x = contig_of y →
    ∃ s s', range_start x = Some s ∧ range_start y = Some s' ∧ s ≤ s'.

(** ** Specification vocabulary: the wait loop *)

(** What the [k]-th query tells the loop. *)
Definition query_result (w : World) (job_prefix : string) (k : nat) : result nat :=
  outcome (get_remaining_nanopolish_jobs w k job_prefix).

(** At least one line of the [k]-th listing contains the prefix. *)
Definition busy (w : World) (job_prefix : string) (k : nat) : Prop :=
  ∃ n, query_result w job_prefix k = Returned (S n).

(** The [k]-th query succeeds and no line of its listing contains the prefix. *)
Definition idle (w : World) (job_prefix : string) (k : nat) : Prop :=
  query_result w job_prefix k = Returned O.

Definition count_at (w : World) (job_prefix : string) (k : nat) : nat :=
  match query_result w job_prefix k with
  | Returned n => n
  | _ => O
  end.

(** A round that finds jobs left, and the round that finds none. *)
Definition waiting_round (w : World) (job_prefix : string) (k : nat) : list event :=
  [Sleep 60; Shell squeue_command;
   Stdout (waiting_message (elapsed w k) (count_at w job_prefix k) +:+ nl)].

Definition final_round : list event :=
  [Sleep 60; Shell squeue_command; Stdout (done_message +:+ nl)].

(** The rounds [k], [k+1], ..., [k+d-1], all of which found jobs left. *)
Fixpoint polling_trace (w : World) (job_prefix : string) (d k : nat) : list event :=
  match d with
  | O => []
  | S d' => waiting_round w job_prefix k ++ polling_trace w job_prefix d' (S k)
  end.

Definition sleeps (t : list event) : list Z :=
  omap (λ ev, match ev with Sleep s => Some s | _ => None end) t.

Definition queries (t : list event) : nat :=
  length (List.filter (λ ev, match ev with
                             | Shell c => bool_decide (c = squeue_command)
                             | _ => false
                             end) t).

(** ** Specification vocabulary: entries of the queue *)

Fixpoint truncate (n : nat) (s : string) : string :=
  match n, s with
  | S n', String c s' => String c (truncate n' s')
  | _, _ => EmptyString
  end.

Definition spaces (n : nat) : string := Nat.iter n (String " "%char) EmptyString.

Definition rjust (width : nat) (s : string) : string :=
  spaces (width - String.length s) +:+ s.

(** A queue entry: the line [squeue] prints for one job under the format the
    script asks for, [%.70j %.8i %.10T], as the manual of [squeue] describes
    it: name, job id and state, each right-justified in a field of its width
    and cut to it. *)
Definition squeue_line (job_name : string) (job_id : N) (state : string) : string :=
  rjust 70 (truncate 70 job_name) +:+ " "
  +:+ rjust 8 (truncate 8 (Py.str (Z.of_N job_id))) +:+ " "
  +:+ rjust 10 (truncate 10 state).

(** The name the script gives the job of a range, for the run with this pid. *)
Definition job_name_of (pid : N) (polish_range : string) : string :=
  job_prefix_of (Py.str (Z.of_N pid)) +:+ polish_range.

Definition is_digit (c : ascii) : Prop := (48 ≤ Py.code c ≤ 57)%N.

(** ** Specification vocabulary: the stages of a run *)

(** A computation run for its effects only. *)
Definition void {A} (m : M A) : M unit := m ≫= λ _, mret tt.

(** The value a computation returns, [d] if it does not return. *)
Definition value {A} (d : A) (m : M A) : A :=
  match outcome m with
  | Returned a => a
  | _ => d
  end.

(** Stages in sequence: the first that does not return ends the run. *)
Fixpoint run_stages (stages : list (M unit)) : M unit :=
  match stages with
  | [] => mret tt
  | s :: rest => s;; run_stages rest
  end.

Definition returned (s : M unit) : Prop := outcome s = Returned tt.

Definition pid_of (w : World) : string := Py.str (Z.of_N (getpid w)).

Definition temp_dir_of (w : World) (argv : Args) : string :=
  Os.path_join (output_arg argv) (pid_of w +:+ "_temp_dir").

Definition set_name_of (argv : Args) : string :=
  Py.first (Py.split ".fasta" (Py.last (Py.split "/" (assembly_arg argv)))).

Definition nanopolish_exec_of (argv : Args) : string :=
  Os.path_join (nanopolish_arg argv) "nanopolish".

Definition nanopolish_script (argv : Args) (name : string) : string :=
  Os.path_join (Os.path_join (nanopolish_arg argv) "scripts") name.

Definition makerange_command (argv : Args) : string :=
  "python " +:+ nanopolish_script argv "nanopolish_makerange.py" +:+ " "
  +:+ assembly_arg argv.

Definition align_command (argv : Args) (threads : Z) : string :=
  "minimap2 -x map10k -a -t " +:+ Py.str threads +:+ " " +:+ assembly_arg argv
  +:+ " " +:+ reads_arg argv
  +:+ " | samtools sort -o reads.sorted.bam -T reads.tmp -".

Definition index_command (argv : Args) : string :=
  nanopolish_exec_of argv +:+ " index -d " +:+ fast5_arg argv +:+ " "
  +:+ reads_arg argv.

Definition plan (w : World) (argv : Args) : M (list string) :=
  get_nanopolish_ranges w (nanopolish_script argv "nanopolish_makerange.py")
    (assembly_arg argv).

(** The values the later stages work with: the thread count, the planner's
    ranges, and the working directory after the filler. *)
Definition threads_of (argv : Args) : Z := value 0 (int (threads_arg argv)).
Definition ranges_of (w : World) (argv : Args) : list string := value [] (plan w argv).
Definition filled_of (w : World) (argv : Args) : gmap string string :=
  value ∅ (fill_incomplete (job_files w) (ranges_of w argv)).

Definition submit_stage (w : World) (argv : Args) : M unit :=
  submit_jobs w (nanopolish_exec_of argv) (reads_arg argv) (assembly_arg argv)
    (job_prefix_of (pid_of w)) (ranges_of w argv) O.

Definition wait_stage (w : World) (fuel : nat) : M unit :=
  wait_for_jobs w (job_prefix_of (pid_of w)) fuel O.

Definition merge_stage (w : World) (argv : Args) : M unit :=
  merge_results w (filled_of w argv)
    (nanopolish_script argv "nanopolish_merge.py") (set_name_of argv).

(** The stages of [main], in order; the comments give their position. *)
Definition stages (w : World) (argv : Args) (fuel : nat) : list (M unit) :=
  [ void (int (threads_arg argv));                                 (* 0 *)
    print (nl +:+ "Preparing to run Nanopolish for " +:+ set_name_of argv);
    Os.mkdir (host_dirs w) (temp_dir_of w argv);                   (* 2 *)
    print ("Moving into " +:+ temp_dir_of w argv);
    emit (Chdir (temp_dir_of w argv));
    emit (Stdout "Getting ranges: ");
    void (plan w argv);                                            (* 6 *)
    print (Py.join ", " (ranges_of w argv));
    print "Aligning reads";
    run (align_command argv (threads_of argv)) (align_rc w);       (* 9 *)
    run "samtools index reads.sorted.bam" (samtools_index_rc w);   (* 10 *)
    print "Running nanopolish index:";
    run (index_command argv) (nanopolish_index_rc w);              (* 12 *)
    print "Launching SLURM jobs:";
    submit_stage w argv;                                           (* 14 *)
    wait_stage w fuel;                                             (* 15 *)
    void (fill_incomplete (job_files w) (ranges_of w argv));       (* 16 *)
    merge_stage w argv;                                            (* 17 *)
    emit (Chdir "..");
    emit (Rmtree (temp_dir_of w argv)) ].                          (* 19 *)

Inductive kind :=
  KStdout | KMkdir | KChdir | KShell | KGlob | KSleep | KWrite | KRmtree.

Definition kind_of (ev : event) : kind :=
  match ev with
  | Stdout _ => KStdout
  | Mkdir _ => KMkdir
  | Chdir _ => KChdir
  | Shell _ => KShell
  | ShellGlob _ _ => KGlob
  | Sleep _ => KSleep
  | WriteFile _ _ => KWrite
  | Rmtree _ => KRmtree
  end.

(** The kinds of event each stage of [main] can leave in the trace. *)
Definition stage_kinds : list (list kind) :=
  [ []; [KStdout]; [KMkdir]; [KStdout]; [KChdir]; [KStdout]; [KShell];
    [KStdout]; [KStdout]; [KShell]; [KShell]; [KStdout]; [KShell]; [KStdout];
    [KStdout; KShell]; [KSleep; KShell; KStdout]; [KStdout; KWrite]; [KGlob];
    [KChdir]; [KRmtree] ].

Definition only (ks : list kind) (s : M unit) : Prop :=
  ∀ ev, ev ∈ trace s → kind_of ev ∈ ks.

(** A stage that ends in [CalledProcessError] ends with the command that
    failed: nothing is done after it. *)
Definition fails_last (s : M unit) : Prop :=
  ∀ rc cmd, outcome s = Raised (CalledProcessError rc cmd) →
    rc ≠ 0 ∧ ∃ t, trace s = t ++ [Shell cmd] ∨ ∃ inputs, trace s = t ++ [ShellGlob cmd inputs].

(** ** Sample runs *)

Definition sample_args : Args :=
  {| assembly_arg := "/data/asm.fasta"; reads_arg := "/data/reads.fastq";
     fast5_arg := "/data/fast5"; output_arg := "/out";
     nanopolish_arg := "/opt/nanopolish"; threads_arg := "4" |}.

Definition queue_header : string := "NAME    JOBID      STATE" +:+ nl.

(** A cluster on which everything succeeds: two ranges, the job of the
    first is still listed at the first query and gone at the second; only the
    first job leaves an output file. *)
Definition sample_world : World :=
  {| getpid := 7%N;
     host_dirs := {[ "/out" ]};
     makerange_out := (0, "c:0-5" +:+ nl +:+ "c:5-10" +:+ nl);
     align_rc := 0; samtools_index_rc := 0; nanopolish_index_rc := 0;
     sbatch_rc := λ _, 0;
     squeue_out := λ k,
       match k with
       | O => (0, queue_header +:+ "Nanopolish_7_c:0-5       11    RUNNING" +:+ nl)
       | _ => (0, queue_header)
       end;
     elapsed := λ k, 60 * (Z.of_nat k + 1);
     job_files := {[ "polished.c:0-5.fa" := ">c:0-5" +:+ nl +:+ "ACGTA" +:+ nl ]};
     merge_rc := 0 |}.

(** The same cluster with no job of the run listed at any query. *)
Definition quiet_world : World :=
  {| getpid := 7%N;
     host_dirs := {[ "/out" ]};
     makerange_out := (0, "c:0-5" +:+ nl +:+ "c:5-10" +:+ nl);
     align_rc := 0; samtools_index_rc := 0; nanopolish_index_rc := 0;
     sbatch_rc := λ _, 0;
     squeue_out := λ _, (0, queue_header);
     elapsed := λ k, 60 * (Z.of_nat k + 1);
     job_files := {[ "polished.c:0-5.fa" := ">c:0-5" +:+ nl +:+ "ACGTA" +:+ nl ]};
     merge_rc := 0 |}.

(** A queue on which the run with pid 1 has a job for a contig named like the
    prefix of the run with pid 2. *)
Definition shared_queue_world : World :=
  {| getpid := 2%N;
     host_dirs := {[ "/out" ]};
     makerange_out := (0, "c:0-5" +:+ nl);
     align_rc := 0; samtools_index_rc := 0; nanopolish_index_rc := 0;
     sbatch_rc := λ _, 0;
     squeue_out := λ _,
       (0, queue_header
           +:+ squeue_line (job_name_of 1 "Nanopolish_2_:0-10") 5 "RUNNING" +:+ nl);
     elapsed := λ k, 60 * (Z.of_nat k + 1);
     job_files := ∅;
     merge_rc := 0 |}.

(** A host on which the working directory of the run is already there. *)
Definition stale_world : World :=
  {| getpid := 7%N;
     host_dirs := {[ "/out"; "/out/7_temp_dir" ]};
     makerange_out := (0, "c:0-5" +:+ nl +:+ "c:5-10" +:+ nl);
     align_rc := 0; samtools_index_rc := 0; nanopolish_index_rc := 0;
     sbatch_rc := λ _, 0;
     squeue_out := λ _, (0, queue_header);
     elapsed := λ k, 60 * (Z.of_nat k + 1);
     job_files := ∅;
     merge_rc := 0 |}.

(** A cluster on which the range tool fails. *)
Definition failing_planner_world : World :=
  {| getpid := 7%N;
     host_dirs := {[ "/out" ]};
     makerange_out := (2, EmptyString);
     align_rc := 0; samtools_index_rc := 0; nanopolish_index_rc := 0;
     sbatch_rc := λ _, 0;
     squeue_out := λ _, (0, queue_header);
     elapsed := λ k, 60 * (Z.of_nat k + 1);
     job_files := ∅;
     merge_rc := 0 |}.

(** A cluster on which the range tool succeeds and prints nothing; the merge
    tool then finds no file to merge. *)
Definition silent_planner_world : World :=
  {| getpid := 7%N;
     host_dirs := {[ "/out" ]};
     makerange_out := (0, EmptyString);
     align_rc := 0; samtools_index_rc := 0; nanopolish_index_rc := 0;
     sbatch_rc := λ _, 0;
     squeue_out := λ _, (0, queue_header);
     elapsed := λ k, 60 * (Z.of_nat k + 1);
     job_files := ∅;
     merge_rc := 1 |}.

(** A cluster that rejects the second submission. *)
Definition rejecting_world : World :=
  {| getpid := 7%N;
     host_dirs := {[ "/out" ]};
     makerange_out := (0, "c:0-5" +:+ nl +:+ "c:5-10" +:+ nl);
     align_rc := 0; samtools_index_rc := 0; nanopolish_index_rc := 0;
     sbatch_rc := λ i, match i with 1%nat => 1 | _ => 0 end;
     squeue_out := λ _, (0, queue_header);
     elapsed := λ k, 60 * (Z.of_nat k + 1);
     job_files := ∅;
     merge_rc := 0 |}.

(** ** Specification vocabulary: further properties *)

(** The identifier of the range from [start] to [end_] of a contig, in the
    form the script takes apart: [contig:start-end]. *)
Definition range_id (contig : string) (start end_ : N) : string :=
  contig +:+ ":" +:+ Py.str (Z.of_N start) +:+ "-" +:+ Py.str (Z.of_N end_).

(** A range the loop over the incomplete ranges gets through: both numbers
    parse and the file name is a plain one. *)
Definition writable (x : string) : bool :=
  bool_decide (is_Some (range_start x)) && bool_decide (is_Some (range_end x))
  && Os.plain (fasta_name x).

(** The exception the loop stops with at a range that is not writable. *)
Definition write_error (x : string) : exn :=
  match range_start x, range_end x with
  | Some _, Some _ =>
      if Py.contains (String Py.NUL EmptyString) (fasta_name x) then ValueError
      else FileNotFoundError (fasta_name x)
  | _, _ => ValueError
  end.

Definition placeholder_of (x : string) : string :=
  placeholder x (default 0 (range_end x) - default 0 (range_start x)).

Definition write_event (x : string) : event :=
  WriteFile (fasta_name x) (placeholder_of x).

(** The ranges up to the first that is not writable, and the exception of
    that one. *)
Fixpoint writable_prefix (l : list string) : list string :=
  match l with
  | [] => []
  | x :: rest => if writable x then x :: writable_prefix rest else []
  end.

Fixpoint first_error (l : list string) : exn :=
  match l with
  | [] => ValueError
  | x :: rest => if writable x then first_error rest else write_error x
  end.

(** The directory with the placeholders of these ranges written, in order. *)
Definition with_placeholders (ws : gmap string string) (l : list string)
    : gmap string string :=
  foldl (λ m x, <[fasta_name x := placeholder_of x]> m) ws l.

Definition warning (incomplete_ranges : list string) : list event :=
  if bool_decide (incomplete_ranges = []) then []
  else [Stdout ("WARNING: some ranges did not complete: "
                +:+ Py.join ", " incomplete_ranges +:+ nl)].

(** The command line that submits the job of a range. *)
Definition submission (nanopolish_exec read_filename assembly_filename job_prefix
    polish_range : string) : string :=
  sbatch_command (job_prefix +:+ polish_range)
    (variants_command nanopolish_exec read_filename assembly_filename polish_range).

(** What the submission loop does for a list of ranges it gets through: for
    each range the command is printed and then run. *)
Definition submit_events (nanopolish_exec read_filename assembly_filename
    job_prefix : string) (polish_ranges : list string) : list event :=
  mjoin ((λ x, let command := submission nanopolish_exec read_filename
                                assembly_filename job_prefix x in
               [Stdout (command +:+ nl); Shell command]) <$> polish_ranges).

(** A line a planner can print for a range: no line break in it, and
    well-formed UTF-8. *)
Definition range_line (l : string) : bool :=
  negb (Py.contains nl l) && negb (Py.contains (String Py.CR EmptyString) l)
  && Py.utf8_valid l.

(** The lines, each followed by a line feed. *)
Definition unlines (lines : list string) : string :=
  foldr (λ l rest, l +:+ nl +:+ rest) EmptyString lines.

(** The ranges as the planner printed them, whether or not they decode. *)
Definition planner_lines (w : World) : list string :=
  Py.bytes_splitlines (makerange_out w).2.

(** What a run does before its first external command: the banner, the
    working directory made and entered. *)
Definition prologue (w : World) (argv : Args) : list event :=
  [ Stdout ((nl +:+ "Preparing to run Nanopolish for " +:+ set_name_of argv) +:+ nl);
    Mkdir (temp_dir_of w argv);
    Stdout (("Moving into " +:+ temp_dir_of w argv) +:+ nl);
    Chdir (temp_dir_of w argv);
    Stdout "Getting ranges: ";
    Shell (makerange_command argv) ].

(** The trace of a run that returns after [d] rounds of waiting and a final
    round. *)
Definition success_trace (w : World) (argv : Args) (d : nat) : list event :=
  prologue w argv
  ++ [ Stdout (Py.join ", " (planner_lines w) +:+ nl);
       Stdout ("Aligning reads" +:+ nl);
       Shell (align_command argv (threads_of argv));
       Shell "samtools index reads.sorted.bam";
       Stdout ("Running nanopolish index:" +:+ nl);
       Shell (index_command argv);
       Stdout ("Launching SLURM jobs:" +:+ nl) ]
  ++ submit_events (nanopolish_exec_of argv) (reads_arg argv) (assembly_arg argv)
       (job_prefix_of (pid_of w)) (planner_lines w)
  ++ polling_trace w (job_prefix_of (pid_of w)) d 0 ++ final_round
  ++ warning (incomplete (job_files w) (planner_lines w))
  ++ (write_event <$> incomplete (job_files w) (planner_lines w))
  ++ [ ShellGlob (merge_command (nanopolish_script argv "nanopolish_merge.py")
                    (set_name_of argv))
         (Os.expand_polished
            (Os.listdir (with_placeholders (job_files w)
                           (incomplete (job_files w) (planner_lines w)))));
       Chdir "..";
       Rmtree (temp_dir_of w argv) ].

(** A scheduler that stops answering after the first query. *)
Definition unreachable_scheduler_world : World :=
  {| getpid := 7%N;
     host_dirs := {[ "/out" ]};
     makerange_out := (0, "c:0-5" +:+ nl +:+ "c:5-10" +:+ nl);
     align_rc := 0; samtools_index_rc := 0; nanopolish_index_rc := 0;
     sbatch_rc := λ _, 0;
     squeue_out := λ k,
       match k with
       | O => (0, queue_header +:+ "Nanopolish_7_c:0-5       11    RUNNING" +:+ nl)
       | _ => (1, EmptyString)
       end;
     elapsed := λ k, 60 * (Z.of_nat k + 1);
     job_files := ∅;
     merge_rc := 0 |}.

(** * Properties *)

(** ** The primitives on small inputs *)

Example split_region : Py.split ":" "contig5:1000-5000" = ["contig5"; "1000-5000"].
Proof. reflexivity. Qed.
Example split_fasta : Py.split ".fasta" "asm.fasta" = ["asm"; EmptyString].
Proof. reflexivity. Qed.
Example split_fasta2 : Py.split ".fasta" "a.fastb.fasta.x" = ["a.fastb"; ".x"].
Proof. reflexivity. Qed.
Example int_ok : Py.int " 1_000 " = Some 1000.
Proof. reflexivity. Qed.
Example int_bad : Py.int "1__0" = None /\ Py.int " " = None /\ Py.int "12a" = None.
Proof. repeat split; reflexivity. Qed.
Example lines_ok :
  Py.bytes_splitlines (Py.of_chars (Py.chars "a" ++ [Py.LF; Py.CR; Py.LF] ++ Py.chars "b" ++ [Py.CR]))
  = ["a"; EmptyString; "b"].
Proof. reflexivity. Qed.
Example repeat_neg : Py.repeat "N" (-2) = EmptyString /\ Py.repeat "N" 3 = "NNN".
Proof. split; reflexivity. Qed.

Example join_ex : Os.path_join "/out" "42_temp_dir" = "/out/42_temp_dir"
  /\ Os.path_join "/" "42_temp_dir" = "/42_temp_dir".
Proof. split; reflexivity. Qed.
Example dirname_ex : Os.dirname "/out/42_temp_dir" = "/out" /\ Os.dirname "/x" = "/".
Proof. split; reflexivity. Qed.
Example glob_ex :
  Os.glob_polished ["polished.c:50-100.fa"; "reads.sorted.bam"; "polished.c:100-150.fa"; "polished.fa"]
  = ["polished.c:100-150.fa"; "polished.c:50-100.fa"].
Proof. vm_compute. reflexivity. Qed.

(** ** Text, through its list of characters *)
Section text.
Import Py.

Lemma of_chars_chars s : of_chars (chars s) = s.
Proof. induction s; simpl; congruence. Qed.

Lemma chars_of_chars l : chars (of_chars l) = l.
Proof. induction l; simpl; congruence. Qed.

Lemma chars_inj s1 s2 : chars s1 = chars s2 → s1 = s2.
Proof. intros H. rewrite <- (of_chars_chars s1), <- (of_chars_chars s2). by rewrite H. Qed.

Lemma chars_app s1 s2 : chars (s1 +:+ s2) = chars s1 ++ chars s2.
Proof.
  induction s1 as [|c s1 IH]; [done|].
  change (chars (String c (s1 +:+ s2)) = c :: (chars s1 ++ chars s2)).
  simpl. by rewrite IH.
Qed.

Lemma length_chars s : String.length s = length (chars s).
Proof. induction s; simpl; congruence. Qed.

Lemma chars_rev_app s1 s2 :
  chars (String.rev_app s1 s2) = reverse (chars s1) ++ chars s2.
Proof.
  revert s2. induction s1 as [|c s1 IH]; intros s2; [done|].
  simpl. rewrite IH, reverse_cons. simpl. by rewrite <- app_assoc.
Qed.

Lemma chars_rev s : chars (String.rev s) = reverse (chars s).
Proof. unfold String.rev. rewrite chars_rev_app. simpl. by rewrite app_nil_r. Qed.

Lemma app_assoc_s s1 s2 s3 : (s1 +:+ s2) +:+ s3 = s1 +:+ s2 +:+ s3.
Proof. apply chars_inj. rewrite !chars_app. by rewrite app_assoc. Qed.

Lemma app_inj_r s1 s2 s : s1 +:+ s = s2 +:+ s → s1 = s2.
Proof.
  intros H. apply chars_inj. apply (f_equal chars) in H.
  rewrite !chars_app in H. by apply app_inv_tail in H.
Qed.

Lemma startswith_prefix p s : startswith p s = true ↔ chars p `prefix_of` chars s.
Proof.
  revert s. induction p as [|a p IH]; intros [|b s]; simpl.
  - split; [intros _; apply prefix_nil | done].
  - split; [intros _; apply prefix_nil | done].
  - split; [done | intros H; by apply prefix_nil_not in H].
  - rewrite andb_true_iff, bool_decide_eq_true, IH. split.
    + intros [-> H]. by apply prefix_cons.
    + intros H. split; [by apply prefix_cons_inv_1 in H | by apply prefix_cons_inv_2 in H].
Qed.

Lemma endswith_suffix p s : endswith p s = true ↔ chars p `suffix_of` chars s.
Proof.
  unfold endswith. rewrite startswith_prefix, !chars_rev.
  by rewrite <- suffix_prefix_reverse.
Qed.

Lemma startswith_app p s : startswith p (p +:+ s) = true.
Proof. apply startswith_prefix. rewrite chars_app. by apply prefix_app_r. Qed.

Lemma endswith_app p s : endswith p (s +:+ p) = true.
Proof. apply endswith_suffix. rewrite chars_app. by apply suffix_app_r. Qed.

(** [p in s] holds exactly when [s] splits around an occurrence of [p]. *)
Lemma contains_occurs p s :
  contains p s = true ↔ ∃ a b, chars s = a ++ chars p ++ b.
Proof.
  induction s as [|c s IH]; simpl.
  - rewrite orb_false_r, startswith_prefix. split.
    + intros [k Hk]. exists [], k. done.
    + intros (a & b & H). symmetry in H.
      apply app_eq_nil in H as [-> H]. apply app_eq_nil in H as [-> _].
      done.
  - rewrite orb_true_iff, startswith_prefix, IH. split.
    + intros [[k Hk] | (a & b & H)].
      * exists [], k. done.
      * exists (c :: a), b. simpl. by rewrite H.
    + intros (a & b & H). destruct a as [|c' a]; simpl in H.
      * left. by exists b.
      * right. injection H as _ H. by exists a, b.
Qed.

(** [c in s] for a single character. *)
Lemma contains_char c s : contains (String c EmptyString) s = true ↔ c ∈ chars s.
Proof.
  induction s as [|d s IH]; simpl.
  - split; [done|by intros ?%elem_of_nil].
  - rewrite orb_true_iff, andb_true_r, bool_decide_eq_true, IH, elem_of_cons.
    done.
Qed.

Lemma split_char_none c a :
  c ∉ chars a → split (String c EmptyString) a = [a].
Proof.
  unfold split. induction a as [|d a IH]; intros Hc; [done|].
  simpl. rewrite bool_decide_false.
  - simpl. rewrite IH; [done|]. intros ?. apply Hc. simpl. by right.
  - intros ->. apply Hc. simpl. by left.
Qed.

Lemma split_char_cons c a b :
  c ∉ chars a →
  split (String c EmptyString) (a +:+ String c b) = a :: split (String c EmptyString) b.
Proof.
  unfold split. induction a as [|d a IH]; intros Hc.
  - change (EmptyString +:+ String c b) with (String c b). simpl.
    by rewrite bool_decide_true.
  - change (String d a +:+ String c b) with (String d (a +:+ String c b)).
    simpl. rewrite bool_decide_false.
    + simpl. rewrite IH; [done|]. intros ?. apply Hc. simpl. by right.
    + intros ->. apply Hc. simpl. by left.
Qed.

End text.

(** ** Computations *)

Ltac unfold_M :=
  unfold mbind, M_bind, mret, M_ret, raise, emit, print, trace, outcome;
  simpl.

Lemma trace_pair {A} (t : list event) (r : result A) : trace (t, r) = t.
Proof. done. Qed.

Lemma outcome_pair {A} (t : list event) (r : result A) : outcome (t, r) = r.
Proof. done. Qed.

Lemma bind_returned {A B} (m : M A) (f : A → M B) t b :
  m ≫= f = (t, Returned b) →
  ∃ t1 a t2, m = (t1, Returned a) ∧ f a = (t2, Returned b) ∧ t = t1 ++ t2.
Proof.
  destruct m as [t1 [a|e|]]; unfold_M; [|done..].
  destruct (f a) as [t2 r] eqn:Hf. intros [= <- ->]. by exists t1, a, t2.
Qed.

Lemma bind_trace {A B} (m : M A) (f : A → M B) :
  trace m `prefix_of` trace (m ≫= f).
Proof.
  destruct m as [t1 [a|e|]]; unfold_M; [|done..].
  destruct (f a) as [t2 r]. by apply prefix_app_r.
Qed.

(** ** The placeholder files *)

Lemma fasta_name_inj x y : fasta_name x = fasta_name y → x = y.
Proof.
  unfold fasta_name. intros H. apply (inj (String.app "polished.")) in H.
  by apply app_inj_r in H.
Qed.

Lemma write_placeholder_returned ws x t ws' :
  write_placeholder ws x = (t, Returned ws') →
  ∃ s e, range_start x = Some s ∧ range_end x = Some e
    ∧ Os.plain (fasta_name x) = true
    ∧ t = [WriteFile (fasta_name x) (placeholder x (e - s))]
    ∧ ws' = <[fasta_name x := placeholder x (e - s)]> ws.
Proof.
  unfold write_placeholder, int, Os.write_text, Os.plain.
  fold (range_start x). fold (range_end x).
  destruct (range_start x) as [s|]; [|done].
  destruct (range_end x) as [e|]; [|done].
  destruct (Py.contains (String Py.NUL EmptyString) (fasta_name x)); [done|].
  destruct (Py.contains "/" (fasta_name x)); [done|].
  unfold_M. intros [= <- <-]. by exists s, e.
Qed.

(** A write happens only on a plain name, and nowhere else in the directory. *)
Lemma write_placeholder_trace ws x n c :
  WriteFile n c ∈ trace (write_placeholder ws x) →
  n = fasta_name x ∧ Os.plain n = true.
Proof.
  unfold write_placeholder, int, Os.write_text, Os.plain.
  fold (range_start x). fold (range_end x).
  destruct (range_start x) as [s|]; [|unfold_M; by intros ?%elem_of_nil].
  destruct (range_end x) as [e|]; [|unfold_M; by intros ?%elem_of_nil].
  destruct (Py.contains (String Py.NUL EmptyString) (fasta_name x)) eqn:H0;
    [unfold_M; by intros ?%elem_of_nil|].
  destruct (Py.contains "/" (fasta_name x)) eqn:H1;
    [unfold_M; by intros ?%elem_of_nil|].
  unfold_M. intros [= -> ->]%list_elem_of_singleton. by rewrite H0, H1.
Qed.

Lemma elem_of_filter_bool {A} (f : A → bool) (l : list A) x :
  x ∈ List.filter f l ↔ x ∈ l ∧ f x = true.
Proof. rewrite !list_elem_of_In. apply filter_In. Qed.

Lemma elem_of_incomplete ws ranges x :
  x ∈ incomplete ws ranges ↔ x ∈ ranges ∧ Os.isfile ws (fasta_name x) = false.
Proof.
  unfold incomplete. rewrite elem_of_filter_bool, negb_true_iff. done.
Qed.

Lemma write_placeholders_returned l : ∀ ws t ws',
  write_placeholders ws l = (t, Returned ws') →
  (∀ n, (∀ x, x ∈ l → n ≠ fasta_name x) → ws' !! n = ws !! n)
  ∧ (∀ x, x ∈ l → ∃ s e, range_start x = Some s ∧ range_end x = Some e
        ∧ Os.plain (fasta_name x) = true
        ∧ ws' !! fasta_name x = Some (placeholder x (e - s))).
Proof.
  induction l as [|y l IH]; intros ws t ws' Hrun.
  - injection Hrun as _ <-. split; [done|]. by intros x ?%elem_of_nil.
  - simpl in Hrun. apply bind_returned in Hrun as (t1 & ws1 & t2 & Hy & Hl & ->).
    apply write_placeholder_returned in Hy as (s & e & Hs & He & Hplain & _ & ->).
    apply IH in Hl as [Hframe Hwritten]. split.
    + intros n Hn. rewrite Hframe by (intros x ?; apply Hn; by right).
      apply lookup_insert_ne. intros Heq. by apply (Hn y); [left|].
    + intros x Hx. destruct (decide (x ∈ l)) as [Hin|Hout]; [by apply Hwritten|].
      apply elem_of_cons in Hx as [->|?]; [|done].
      exists s, e. split_and!; [done..|].
      rewrite Hframe; [apply lookup_insert_eq|].
      intros x Hx Heq. apply fasta_name_inj in Heq as ->. done.
Qed.

Lemma bind_trace_elem {A B} (m : M A) (f : A → M B) ev :
  ev ∈ trace (m ≫= f) →
  ev ∈ trace m ∨ ∃ t a, m = (t, Returned a) ∧ ev ∈ trace (f a).
Proof.
  destruct m as [t1 [a|e|]]; unfold_M; [|by left..].
  destruct (f a) as [t2 r] eqn:Hf. simpl. intros [?|?]%elem_of_app; [by left|].
  right. exists t1, a. by rewrite Hf.
Qed.

Lemma write_placeholders_trace l : ∀ ws n c,
  WriteFile n c ∈ trace (write_placeholders ws l) →
  ∃ x, x ∈ l ∧ n = fasta_name x ∧ Os.plain n = true.
Proof.
  induction l as [|y l IH]; intros ws n c; simpl.
  - unfold_M. by intros ?%elem_of_nil.
  - intros [H | (t & ws1 & _ & H)]%bind_trace_elem.
    + apply write_placeholder_trace in H as [-> ?]. exists y. split; [by left|done].
    + apply IH in H as (x & ? & ? & ?). exists x. split; [by right|done].
Qed.

Lemma fill_incomplete_returned ws ranges t ws' :
  fill_incomplete ws ranges = (t, Returned ws') →
  ∃ t', write_placeholders ws (incomplete ws ranges) = (t', Returned ws').
Proof.
  unfold fill_incomplete. intros (t1 & [] & t2 & _ & H & _)%bind_returned.
  by exists t2.
Qed.

Lemma fill_incomplete_trace ws ranges n c :
  WriteFile n c ∈ trace (fill_incomplete ws ranges) →
  WriteFile n c ∈ trace (write_placeholders ws (incomplete ws ranges)).
Proof.
  unfold fill_incomplete. intros [H | (t & [] & _ & H)]%bind_trace_elem; [|done].
  case_bool_decide; revert H; unfold_M.
  - by intros ?%elem_of_nil.
  - by intros [=]%list_elem_of_singleton.
Qed.

Lemma isfile_false_plain ws n :
  Os.isfile ws n = false → Os.plain n = true → ws !! n = None.
Proof.
  unfold Os.isfile. intros H Hplain. rewrite Hplain in H. simpl in H.
  apply bool_decide_eq_false in H. by apply eq_None_not_Some.
Qed.

Lemma length_repeat_N k : Z.of_nat (String.length (Py.repeat "N" k)) = Z.max 0 k.
Proof.
  unfold Py.repeat.
  assert (∀ n, String.length (Nat.iter n (String.append "N") EmptyString) = n) as ->.
  { induction n as [|n IH]; [done|].
    change (S (String.length (Nat.iter n (String.append "N") EmptyString)) = S n).
    by rewrite IH. }
  lia.
Qed.

Lemma chars_repeat_N k : Py.chars (Py.repeat "N" k) = replicate (Z.to_nat k) "N"%char.
Proof.
  unfold Py.repeat. induction (Z.to_nat k) as [|n IH]; [done|].
  change (Py.chars (String "N" (Nat.iter n (String.append "N") EmptyString))
          = "N"%char :: replicate n "N"%char).
  simpl. by rewrite IH.
Qed.

(** The placeholder, line by line, as [split] at line feeds gives it. *)
Lemma placeholder_lines x k :
  Py.contains nl x = false →
  Py.split nl (placeholder x k) = [">" +:+ x; Py.repeat "N" k; EmptyString].
Proof.
  intros Hx. unfold placeholder, nl.
  assert (Py.LF ∉ Py.chars x) as Hlf.
  { intros H%contains_char. unfold nl in Hx. congruence. }
  rewrite <- (app_assoc_s ">" x).
  change (String Py.LF EmptyString +:+ Py.repeat "N" k +:+ String Py.LF EmptyString)
    with (String Py.LF (Py.repeat "N" k +:+ String Py.LF EmptyString)).
  rewrite split_char_cons.
  - rewrite split_char_cons; [done|].
    rewrite chars_repeat_N. by intros [? _]%elem_of_replicate.
  - rewrite chars_app. intros [H|H]%elem_of_app; [|done].
    simpl in H. by apply list_elem_of_singleton in H.
Qed.

(** The lines [bytes.splitlines()] returns hold no line feed. *)
Lemma bytes_splitlines_go_one_line s : ∀ cur x,
  Py.LF ∉ Py.chars cur → x ∈ Py.bytes_splitlines_go s cur → Py.LF ∉ Py.chars x.
Proof.
  assert (Py.LF ∉ Py.chars EmptyString) as Hnil by apply not_elem_of_nil.
  induction s as [|c s IH]; intros cur x Hcur; simpl.
  - case_bool_decide; [by intros ?%elem_of_nil|].
    by intros ->%list_elem_of_singleton.
  - case_bool_decide as Hlf; [|case_bool_decide as Hcr].
    + intros [->|H]%elem_of_cons; [done|]. by apply (IH EmptyString).
    + intros [->|H]%elem_of_cons; [done|]. destruct s as [|c' s'].
      * by apply elem_of_nil in H.
      * case_bool_decide as Hc'.
        -- apply (IH EmptyString x); [done|]. simpl.
           rewrite bool_decide_true by done. by right.
        -- by apply (IH EmptyString).
    + apply IH. unfold Py.snoc. rewrite chars_app. intros [?|H]%elem_of_app; [done|].
      simpl in H. apply list_elem_of_singleton in H. congruence.
Qed.

Lemma fill_incomplete_frame ws ranges t ws' n :
  fill_incomplete ws ranges = (t, Returned ws') →
  is_Some (ws !! n) → ws' !! n = ws !! n.
Proof.
  intros Hfill Hsome.
  apply fill_incomplete_returned in Hfill as [t' Hw].
  apply write_placeholders_returned in Hw as [Hframe Hwritten].
  apply Hframe. intros x Hx ->.
  destruct (Hwritten x Hx) as (_ & _ & _ & _ & Hplain & _).
  apply elem_of_incomplete in Hx as [_ Hfile].
  rewrite (isfile_false_plain _ _ Hfile Hplain) in Hsome. by destruct Hsome.
Qed.

(** C9. The filler leaves every file that is already there as it is: each
    write it performs goes to the file of a range whose output is absent,
    under a name the directory does not hold yet, and when it returns every
    name the directory held maps to the contents it had. *)
Theorem existing_outputs_untouched (ws : gmap string string) (ranges : list string) :
  (∀ n c, WriteFile n c ∈ trace (fill_incomplete ws ranges) →
     ws !! n = None
     ∧ ∃ x, x ∈ ranges ∧ n = fasta_name x ∧ Os.isfile ws (fasta_name x) = false)
  ∧ (∀ ws', outcome (fill_incomplete ws ranges) = Returned ws' →
     ∀ n, is_Some (ws !! n) → ws' !! n = ws !! n).
Proof.
  split.
  - intros n c H. apply fill_incomplete_trace, write_placeholders_trace in H
      as (x & [Hx Hfile]%elem_of_incomplete & -> & Hplain).
    split; [by apply isfile_false_plain|]. by exists x.
  - intros ws' Hrun n Hsome.
    destruct (fill_incomplete ws ranges) as [t r] eqn:Hfill. simpl in Hrun. subst r.
    by eapply fill_incomplete_frame.
Qed.

Lemma existing_outputs_untouched_witness :
  filled_of sample_world sample_args !! "polished.c:0-5.fa"
  = job_files sample_world !! "polished.c:0-5.fa".
Proof.
  apply (proj2 (existing_outputs_untouched (job_files sample_world)
                  ["c:0-5"; "c:5-10"])).
  - vm_compute. reflexivity.
  - eexists. vm_compute. reflexivity.
Defined.

(** C1, as amended.  When the filler returns, a range of the planner's list
    whose output file is absent has a file whose contents are the header line
    ['>'] followed by the identifier, then one line of Ns; the start and the
    end parse as integers, and the line of Ns has length [end - start] when
    that is not negative and 0 otherwise.  For an identifier that is one line,
    as the planner's are, these are the first and the second line of the
    file. *)
Theorem placeholder_for_missing_output
    (ws : gmap string string) (ranges : list string) t ws' (x : string) :
  fill_incomplete ws ranges = (t, Returned ws') →
  x ∈ ranges →
  Os.isfile ws (fasta_name x) = false →
  ∃ start end_ seq,
    range_start x = Some start ∧ range_end x = Some end_
    ∧ ws' !! fasta_name x = Some (">" +:+ x +:+ nl +:+ seq +:+ nl)
    ∧ seq = Py.repeat "N" (end_ - start)
    ∧ Z.of_nat (String.length seq) = Z.max 0 (end_ - start)
    ∧ (Py.contains nl x = false →
       Py.split nl (">" +:+ x +:+ nl +:+ seq +:+ nl) = [">" +:+ x; seq; EmptyString]).
Proof.
  intros Hfill Hx Hfile.
  apply fill_incomplete_returned in Hfill as [t' Hw].
  apply write_placeholders_returned in Hw as [_ Hwritten].
  destruct (Hwritten x) as (s & e & Hs & He & _ & Hlook).
  { by apply elem_of_incomplete. }
  exists s, e, (Py.repeat "N" (e - s)). split_and!; try done.
  - apply length_repeat_N.
  - apply placeholder_lines.
Qed.

Lemma placeholder_for_missing_output_witness :
  ∃ start end_ seq,
    range_start "contig1:100-150" = Some start
    ∧ range_end "contig1:100-150" = Some end_
    ∧ (<[fasta_name "contig1:100-150" := placeholder "contig1:100-150" 50]>
         (∅ : gmap string string)) !! fasta_name "contig1:100-150"
      = Some (">" +:+ "contig1:100-150" +:+ nl +:+ seq +:+ nl)
    ∧ seq = Py.repeat "N" (end_ - start)
    ∧ Z.of_nat (String.length seq) = Z.max 0 (end_ - start)
    ∧ (Py.contains nl "contig1:100-150" = false →
       Py.split nl (">" +:+ "contig1:100-150" +:+ nl +:+ seq +:+ nl)
       = [">" +:+ "contig1:100-150"; seq; EmptyString]).
Proof.
  apply (placeholder_for_missing_output ∅ ["contig1:100-150"]
           [Stdout ("WARNING: some ranges did not complete: contig1:100-150" +:+ nl);
            WriteFile (fasta_name "contig1:100-150")
              (placeholder "contig1:100-150" 50)]).
  - vm_compute. reflexivity.
  - apply list_elem_of_here.
  - vm_compute. reflexivity.
Defined.

(** C1 as stated fails where the end lies before the start: for ["c:5-3"]
    the file has an empty line of Ns, while [end - start] is -2; and a range
    without digits stops the filler with [ValueError] before it writes. *)
Lemma placeholder_length_counterexample :
  fill_incomplete ∅ ["c:5-3"]
  = ([Stdout ("WARNING: some ranges did not complete: c:5-3" +:+ nl);
      WriteFile "polished.c:5-3.fa" (">c:5-3" +:+ nl +:+ nl)],
     Returned {[ "polished.c:5-3.fa" := ">c:5-3" +:+ nl +:+ EmptyString +:+ nl ]})
  ∧ range_start "c:5-3" = Some 5 ∧ range_end "c:5-3" = Some 3
  ∧ Z.of_nat (String.length EmptyString) ≠ 3 - 5
  ∧ fill_incomplete ∅ ["chr1"]
    = ([Stdout ("WARNING: some ranges did not complete: chr1" +:+ nl)],
       Raised ValueError).
Proof. split_and!; [vm_compute; reflexivity..|done|vm_compute; reflexivity]. Qed.

(** ** The files the merge consumes *)

Lemma elem_of_glob_polished listing n :
  n ∈ Os.glob_polished listing ↔ n ∈ listing ∧ Os.matches_polished n = true.
Proof.
  unfold Os.glob_polished. rewrite merge_sort_Permutation.
  apply elem_of_filter_bool.
Qed.

Lemma NoDup_glob_polished listing : NoDup listing → NoDup (Os.glob_polished listing).
Proof.
  intros H. unfold Os.glob_polished. rewrite merge_sort_Permutation.
  apply NoDup_ListNoDup, List.NoDup_filter. by apply NoDup_ListNoDup.
Qed.

Lemma elem_of_listdir (ws : gmap string string) n :
  n ∈ Os.listdir ws ↔ is_Some (ws !! n).
Proof. unfold Os.listdir. by rewrite elem_of_elements, elem_of_dom. Qed.

Lemma matches_polished_fasta_name x : Os.matches_polished (fasta_name x) = true.
Proof.
  unfold Os.matches_polished.
  apply andb_true_iff; split; [apply andb_true_iff; split|].
  - apply startswith_app.
  - unfold fasta_name. rewrite <- app_assoc_s. apply endswith_app.
  - apply Nat.leb_le. unfold fasta_name.
    rewrite length_chars, !chars_app, !length_app. simpl. lia.
Qed.

(** C4. When the filler has returned, the files the pattern of the merge
    command expands to are pairwise distinct; each range of the planner's
    list has its file among them, the job's own output if it was there and the
    placeholder otherwise; and the filler has added nothing but files of
    ranges: every consumed file was matched before the filler ran or is the
    file of a range. *)
Theorem every_range_resolved_once
    (ws : gmap string string) (ranges : list string) t ws' :
  fill_incomplete ws ranges = (t, Returned ws') →
  NoDup (Os.glob_polished (Os.listdir ws'))
  ∧ (∀ x, x ∈ ranges →
       fasta_name x ∈ Os.glob_polished (Os.listdir ws')
       ∧ (Os.isfile ws (fasta_name x) = true
            ∧ is_Some (ws !! fasta_name x)
            ∧ ws' !! fasta_name x = ws !! fasta_name x
          ∨ Os.isfile ws (fasta_name x) = false
            ∧ ∃ s e, range_start x = Some s ∧ range_end x = Some e
                ∧ ws' !! fasta_name x = Some (placeholder x (e - s))))
  ∧ (∀ n, n ∈ Os.glob_polished (Os.listdir ws') →
       n ∈ Os.glob_polished (Os.listdir ws) ∨ ∃ x, x ∈ ranges ∧ n = fasta_name x)
  ∧ (ranges ≠ [] →
       Os.expand_polished (Os.listdir ws') = Os.glob_polished (Os.listdir ws')).
Proof.
  intros Hfill.
  pose proof (λ n, fill_incomplete_frame ws ranges t ws' n Hfill) as Hold.
  apply fill_incomplete_returned in Hfill as [t' Hw].
  apply write_placeholders_returned in Hw as [Hframe Hwritten].
  assert (∀ x, x ∈ ranges →
       fasta_name x ∈ Os.glob_polished (Os.listdir ws')
       ∧ (Os.isfile ws (fasta_name x) = true
            ∧ is_Some (ws !! fasta_name x)
            ∧ ws' !! fasta_name x = ws !! fasta_name x
          ∨ Os.isfile ws (fasta_name x) = false
            ∧ ∃ s e, range_start x = Some s ∧ range_end x = Some e
                ∧ ws' !! fasta_name x = Some (placeholder x (e - s)))) as Hranges.
  { intros x Hx. rewrite elem_of_glob_polished, elem_of_listdir.
    destruct (Os.isfile ws (fasta_name x)) eqn:Hfile.
    - assert (is_Some (ws !! fasta_name x)) as Hsome.
      { unfold Os.isfile in Hfile. apply andb_true_iff in Hfile as [_ H].
        by apply bool_decide_eq_true in H. }
      split; [split; [|apply matches_polished_fasta_name]|left].
      + by rewrite Hold.
      + split_and!; [done..|by apply Hold].
    - destruct (Hwritten x) as (s & e & Hs & He & _ & Hlook).
      { by apply elem_of_incomplete. }
      split; [split; [|apply matches_polished_fasta_name]|right].
      + by rewrite Hlook.
      + split; [done|]. by exists s, e. }
  split_and!.
  - apply NoDup_glob_polished. unfold Os.listdir. apply NoDup_elements.
  - done.
  - intros n [Hn Hmatch]%elem_of_glob_polished. apply elem_of_listdir in Hn.
    destruct (decide (n ∈ fasta_name <$> incomplete ws ranges))
      as [(x & -> & [Hx _]%elem_of_incomplete)%list_elem_of_fmap|Hno].
    + right. by exists x.
    + left. apply elem_of_glob_polished. split; [|done].
      apply elem_of_listdir. rewrite <- Hframe; [done|].
      intros x Hx ->. apply Hno. by apply list_elem_of_fmap_2.
  - intros Hne. destruct ranges as [|x ranges]; [done|].
    destruct (Hranges x) as [Hin _]; [by left|].
    unfold Os.expand_polished.
    destruct (Os.glob_polished (Os.listdir ws')); [by apply elem_of_nil in Hin|done].
Qed.

(** ** The order of the merge *)

Lemma List_filter_Permutation {A} (f : A → bool) (l1 l2 : list A) :
  l1 ≡ₚ l2 → List.filter f l1 ≡ₚ List.filter f l2.
Proof.
  induction 1 as [|x l1 l2 _ IH|x y l|l1 l2 l3 _ IH1 _ IH2]; simpl.
  - done.
  - destruct (f x); by rewrite IH.
  - destruct (f x), (f y); try done. apply perm_swap.
  - by etrans.
Qed.

Lemma glob_polished_sorted listing : StronglySorted String.le (Os.glob_polished listing).
Proof. apply (StronglySorted_merge_sort String.le). Qed.

Lemma glob_polished_Permutation l1 l2 :
  l1 ≡ₚ l2 → Os.glob_polished l1 = Os.glob_polished l2.
Proof.
  intros H. apply (StronglySorted_unique String.le); try apply glob_polished_sorted.
  unfold Os.glob_polished. rewrite !merge_sort_Permutation.
  by apply List_filter_Permutation.
Qed.

(** C2, as amended.  Whatever order the directory is enumerated in, the merge
    command is handed the same list of files: the names matching
    [polished.*.fa], each once, in ascending byte order of the names; the
    merged assembly is their contents in that order. *)
Theorem merge_order_is_lexical (ws : gmap string string) (listing : list string) :
  listing ≡ₚ Os.listdir ws →
  Os.glob_polished listing = Os.glob_polished (Os.listdir ws)
  ∧ StronglySorted String.le (Os.glob_polished listing)
  ∧ NoDup (Os.glob_polished listing)
  ∧ (∀ n, n ∈ Os.glob_polished listing
          ↔ is_Some (ws !! n) ∧ Os.matches_polished n = true)
  ∧ merge_tool ws (Os.expand_polished listing)
    = merge_tool ws (Os.expand_polished (Os.listdir ws)).
Proof.
  intros Hperm. pose proof (glob_polished_Permutation _ _ Hperm) as Heq.
  split_and!.
  - done.
  - apply glob_polished_sorted.
  - rewrite Heq. apply NoDup_glob_polished. unfold Os.listdir. apply NoDup_elements.
  - intros n. by rewrite Heq, elem_of_glob_polished, elem_of_listdir.
  - unfold Os.expand_polished. by rewrite Heq.
Qed.

Lemma merge_order_is_lexical_witness :
  Os.glob_polished ["polished.b.fa"; "polished.a.fa"]
  = Os.glob_polished
      (Os.listdir {[ "polished.a.fa" := ">a"; "polished.b.fa" := ">b" ]})
  ∧ StronglySorted String.le (Os.glob_polished ["polished.b.fa"; "polished.a.fa"])
  ∧ NoDup (Os.glob_polished ["polished.b.fa"; "polished.a.fa"])
  ∧ (∀ n, n ∈ Os.glob_polished ["polished.b.fa"; "polished.a.fa"]
          ↔ is_Some (({[ "polished.a.fa" := ">a"; "polished.b.fa" := ">b" ]}
                        : gmap string string) !! n)
            ∧ Os.matches_polished n = true)
  ∧ merge_tool {[ "polished.a.fa" := ">a"; "polished.b.fa" := ">b" ]}
      (Os.expand_polished ["polished.b.fa"; "polished.a.fa"])
    = merge_tool {[ "polished.a.fa" := ">a"; "polished.b.fa" := ">b" ]}
        (Os.expand_polished
           (Os.listdir {[ "polished.a.fa" := ">a"; "polished.b.fa" := ">b" ]})).
Proof.
  apply (merge_order_is_lexical
           {[ "polished.a.fa" := ">a"; "polished.b.fa" := ">b" ]}
           ["polished.b.fa"; "polished.a.fa"]).
  vm_compute. apply perm_swap.
Defined.

(** C2 as stated fails once the starts of one contig differ in their number
    of digits: for the ranges 0-5, 5-10 and 10-15 of contig [c] the merge
    command is handed the file of 10-15 before the file of 5-10, and the
    merged assembly has its records in that order. *)
Lemma merge_order_counterexample :
  outcome (fill_incomplete ∅ ["c:0-5"; "c:5-10"; "c:10-15"])
  = Returned {[ "polished.c:0-5.fa" := placeholder "c:0-5" 5;
                "polished.c:5-10.fa" := placeholder "c:5-10" 5;
                "polished.c:10-15.fa" := placeholder "c:10-15" 5 ]}
  ∧ Os.expand_polished
      (Os.listdir {[ "polished.c:0-5.fa" := placeholder "c:0-5" 5;
                     "polished.c:5-10.fa" := placeholder "c:5-10" 5;
                     "polished.c:10-15.fa" := placeholder "c:10-15" 5 ]})
    = ["polished.c:0-5.fa"; "polished.c:10-15.fa"; "polished.c:5-10.fa"]
  ∧ record_ids
      (merge_tool {[ "polished.c:0-5.fa" := placeholder "c:0-5" 5;
                     "polished.c:5-10.fa" := placeholder "c:5-10" 5;
                     "polished.c:10-15.fa" := placeholder "c:10-15" 5 ]}
         ["polished.c:0-5.fa"; "polished.c:10-15.fa"; "polished.c:5-10.fa"])
    = ["c:0-5"; "c:10-15"; "c:5-10"]
  ∧ ¬ coordinate_order ["c:0-5"; "c:10-15"; "c:5-10"].
Proof.
  split_and!; [vm_compute; reflexivity..|].
  intros H. destruct (H 1%nat 2%nat "c:10-15" "c:5-10") as (s & s' & Hs & Hs' & Hle);
    [lia|done..|].
  vm_compute in Hs, Hs'. injection Hs as <-. injection Hs' as <-. lia.
Qed.

(** ** The wait loop *)

Lemma get_remaining_eq w k job_prefix :
  get_remaining_nanopolish_jobs w k job_prefix
  = ([Shell squeue_command], query_result w job_prefix k).
Proof.
  unfold query_result, get_remaining_nanopolish_jobs, check_output, decode.
  destruct (squeue_out w k) as [rc out]. unfold_M.
  case_bool_decide; [|done]. simpl. by destruct (Py.decode out).
Qed.

Lemma wait_for_jobs_step w job_prefix fuel k :
  wait_for_jobs w job_prefix (S fuel) k
  = match query_result w job_prefix k with
    | Returned O => (final_round, Returned tt)
    | Returned (S n) =>
        (waiting_round w job_prefix k
           ++ trace (wait_for_jobs w job_prefix fuel (S k)),
         outcome (wait_for_jobs w job_prefix fuel (S k)))
    | Raised e => ([Sleep 60; Shell squeue_command], Raised e)
    | Polling => ([Sleep 60; Shell squeue_command], Polling)
    end.
Proof.
  unfold waiting_round, count_at. simpl. rewrite get_remaining_eq.
  destruct (query_result w job_prefix k) as [[|n]|e|]; unfold_M; try done.
  by destruct (wait_for_jobs w job_prefix fuel (S k)).
Qed.

Lemma query_result_not_polling w job_prefix k : query_result w job_prefix k ≠ Polling.
Proof.
  unfold query_result, get_remaining_nanopolish_jobs, check_output, decode.
  destruct (squeue_out w k) as [rc out]. unfold_M.
  case_bool_decide; [|done]. simpl. by destruct (Py.decode out).
Qed.

(** The loop reports DONE exactly when some round finds no job and every
    round before it found one; the trace is then that of the rounds. *)
Lemma wait_for_jobs_returned w job_prefix fuel : ∀ k t,
  wait_for_jobs w job_prefix fuel k = (t, Returned tt)
  ↔ ∃ d, (d < fuel)%nat
       ∧ (∀ j, (j < d)%nat → busy w job_prefix (k + j))
       ∧ idle w job_prefix (k + d)
       ∧ t = polling_trace w job_prefix d k ++ final_round.
Proof.
  induction fuel as [|fuel IH]; intros k t.
  - simpl. split; [done|]. intros (d & ? & _). lia.
  - rewrite wait_for_jobs_step. unfold busy, idle.
    destruct (query_result w job_prefix k) as [[|n]|e|] eqn:Hq.
    + split.
      * intros [= <-]. exists O. rewrite Nat.add_0_r. split_and!; [lia| |done..].
        intros j ?. lia.
      * intros (d & _ & Hbusy & Hidle & ->). destruct d as [|d]; [done|].
        destruct (Hbusy O) as [n Hn]; [lia|]. rewrite Nat.add_0_r in Hn. congruence.
    + destruct (wait_for_jobs w job_prefix fuel (S k)) as [t' r'] eqn:Hrest.
      unfold_M. split.
      * intros [= <- ->]. apply IH in Hrest as (d & ? & Hbusy & Hidle & ->).
        exists (S d). split_and!; [lia| | |done].
        -- intros [|j] ?; [rewrite Nat.add_0_r; by exists n|].
           replace (k + S j)%nat with (S k + j)%nat by lia. apply Hbusy. lia.
        -- by replace (k + S d)%nat with (S k + d)%nat by lia.
      * intros (d & ? & Hbusy & Hidle & ->). destruct d as [|d].
        { rewrite Nat.add_0_r in Hidle. congruence. }
        assert (wait_for_jobs w job_prefix fuel (S k)
                = (polling_trace w job_prefix d (S k) ++ final_round, Returned tt))
          as Heq.
        { apply IH. exists d. split_and!; [lia| | |done].
          - intros j ?. replace (S k + j)%nat with (k + S j)%nat by lia.
            apply Hbusy. lia.
          - by replace (S k + d)%nat with (k + S d)%nat by lia. }
        rewrite Hrest in Heq. injection Heq as -> ->. done.
    + split; [done|]. intros (d & _ & Hbusy & Hidle & _). destruct d as [|d].
      * rewrite Nat.add_0_r in Hidle. congruence.
      * destruct (Hbusy O) as [n Hn]; [lia|]. rewrite Nat.add_0_r in Hn. congruence.
    + by apply query_result_not_polling in Hq.
Qed.

(** While every round finds a job, the loop keeps polling. *)
Lemma wait_for_jobs_polling w job_prefix fuel : ∀ k,
  (∀ j, (j < fuel)%nat → busy w job_prefix (k + j)) →
  wait_for_jobs w job_prefix fuel k = (polling_trace w job_prefix fuel k, Polling).
Proof.
  induction fuel as [|fuel IH]; intros k Hbusy; [done|].
  rewrite wait_for_jobs_step. destruct (Hbusy O) as [n Hn]; [lia|].
  rewrite Nat.add_0_r in Hn. rewrite Hn. rewrite IH; [done|].
  intros j ?. replace (S k + j)%nat with (k + S j)%nat by lia. apply Hbusy. lia.
Qed.

Lemma sleeps_polling_trace w job_prefix d : ∀ k,
  sleeps (polling_trace w job_prefix d k) = replicate d 60.
Proof. induction d as [|d IH]; intros k; [done|]. simpl. by rewrite IH. Qed.

Lemma queries_polling_trace w job_prefix d : ∀ k,
  queries (polling_trace w job_prefix d k) = d.
Proof.
  unfold queries. induction d as [|d IH]; intros k; [done|].
  simpl. by rewrite IH.
Qed.

Lemma query_result_cases w job_prefix k n :
  query_result w job_prefix k = Returned n
  ↔ ∃ listing, squeue_out w k = (0, listing)
       ∧ Py.decode listing = Some listing
       ∧ length (remaining_in job_prefix listing) = n.
Proof.
  unfold query_result, get_remaining_nanopolish_jobs, check_output, decode.
  destruct (squeue_out w k) as [rc out]. unfold_M.
  case_bool_decide as Hrc; simpl.
  - subst rc. unfold Py.decode. destruct (Py.utf8_valid out) eqn:Hv; simpl.
    + split; [intros [= <-]; exists out; by rewrite Hv|].
      by intros (? & [= <-] & _ & <-).
    + split; [done|]. intros (? & [= <-] & H & _). by rewrite Hv in H.
  - split; [done|]. intros (? & [= ? _] & _). done.
Qed.

Lemma wait_for_jobs_busy_prefix w job_prefix d : ∀ fuel k,
  (∀ j, (j < d)%nat → busy w job_prefix (k + j)) →
  wait_for_jobs w job_prefix (d + fuel) k
  = (polling_trace w job_prefix d k
       ++ trace (wait_for_jobs w job_prefix fuel (k + d)),
     outcome (wait_for_jobs w job_prefix fuel (k + d))).
Proof.
  induction d as [|d IH]; intros fuel k Hbusy.
  - rewrite Nat.add_0_r. simpl. by destruct (wait_for_jobs w job_prefix fuel k).
  - change (S d + fuel)%nat with (S (d + fuel)). rewrite wait_for_jobs_step.
    destruct (Hbusy O) as [n Hn]; [lia|]. rewrite Nat.add_0_r in Hn. rewrite Hn.
    rewrite IH.
    + by replace (S k + d)%nat with (k + S d)%nat by lia.
    + intros j ?. replace (S k + j)%nat with (k + S j)%nat by lia. apply Hbusy. lia.
Qed.

Lemma wait_for_jobs_starts w job_prefix fuel k :
  [Sleep 60; Shell squeue_command]
    `prefix_of` trace (wait_for_jobs w job_prefix (S fuel) k).
Proof.
  rewrite wait_for_jobs_step.
  destruct (query_result w job_prefix k) as [[|n]|e|]; simpl; try done.
  - by eexists [_].
  - by eexists (_ :: _).
Qed.

(** C3. The wait loop reports DONE exactly when one of its queries succeeds
    with no line that contains the job prefix, every query before it having
    shown at least one such line; as long as the queries show such lines the
    loop does not end; and after a query that shows one, the loop sleeps 60
    seconds and queries again. *)
Theorem monitor_done_iff_queue_empty (w : World) (job_prefix : string) :
  (∀ fuel t,
     wait_for_jobs w job_prefix fuel O = (t, Returned tt)
     ↔ ∃ d, (d < fuel)%nat
          ∧ (∀ j, (j < d)%nat → busy w job_prefix j)
          ∧ idle w job_prefix d
          ∧ t = polling_trace w job_prefix d O ++ final_round)
  ∧ (∀ k, idle w job_prefix k
          ↔ ∃ listing, squeue_out w k = (0, listing)
               ∧ Py.decode listing = Some listing
               ∧ remaining_in job_prefix listing = [])
  ∧ (∀ k, busy w job_prefix k
          ↔ ∃ listing, squeue_out w k = (0, listing)
               ∧ Py.decode listing = Some listing
               ∧ remaining_in job_prefix listing ≠ [])
  ∧ (∀ fuel, (∀ j, (j < fuel)%nat → busy w job_prefix j) →
       wait_for_jobs w job_prefix fuel O
       = (polling_trace w job_prefix fuel O, Polling))
  ∧ (∀ fuel k, (∀ j, (j ≤ k)%nat → busy w job_prefix j) →
       polling_trace w job_prefix (S k) O ++ [Sleep 60; Shell squeue_command]
         `prefix_of` trace (wait_for_jobs w job_prefix (S k + S fuel) O)).
Proof.
  split_and!.
  - intros fuel t. apply wait_for_jobs_returned.
  - intros k. unfold idle. rewrite query_result_cases.
    by setoid_rewrite length_zero_iff_nil.
  - intros k. unfold busy. split.
    + intros (n & (listing & ? & ? & Hlen)%query_result_cases).
      exists listing. split_and!; [done..|]. by destruct (remaining_in _ _).
    + intros (listing & ? & ? & Hne).
      destruct (remaining_in job_prefix listing) as [|x l] eqn:Hl; [done|].
      exists (length l). apply query_result_cases. exists listing.
      by rewrite Hl.
  - intros fuel Hbusy. apply wait_for_jobs_polling. intros j ?. by apply Hbusy.
  - intros fuel k Hbusy. rewrite wait_for_jobs_busy_prefix.
    + rewrite trace_pair. apply prefix_app, wait_for_jobs_starts.
    + intros j ?. apply Hbusy. simpl. lia.
Qed.

Lemma monitor_done_iff_queue_empty_witness :
  wait_for_jobs sample_world "Nanopolish_7_" 5 O
  = (polling_trace sample_world "Nanopolish_7_" 1 O ++ final_round, Returned tt).
Proof.
  apply (proj1 (monitor_done_iff_queue_empty sample_world "Nanopolish_7_")).
  exists 1%nat. split_and!.
  - lia.
  - intros [|j] ?; [by exists O|lia].
  - reflexivity.
  - reflexivity.
Defined.

(** C8, as amended.  Every round of the wait loop sleeps 60 seconds first
    and queries the queue after that; a run that reports DONE after its
    [d+1]-th query has slept [d+1] times, 60 seconds each, so also a run whose
    jobs are gone at the first query has slept once. *)
Theorem monitor_sleeps_then_queries (w : World) (job_prefix : string) :
  (∀ fuel, [Sleep 60; Shell squeue_command]
             `prefix_of` trace (wait_for_jobs w job_prefix (S fuel) O))
  ∧ (∀ fuel t, wait_for_jobs w job_prefix fuel O = (t, Returned tt) →
       ∃ d, t = polling_trace w job_prefix d O ++ final_round
          ∧ sleeps t = replicate (S d) 60
          ∧ queries t = S d).
Proof.
  split.
  - intros fuel. apply wait_for_jobs_starts.
  - intros fuel t (d & _ & _ & _ & ->)%wait_for_jobs_returned. exists d.
    split_and!; [done| |].
    + unfold sleeps. rewrite omap_app. fold (sleeps (polling_trace w job_prefix d 0)).
      rewrite sleeps_polling_trace. simpl.
      change [60] with (replicate 1 60). rewrite <- replicate_add.
      by replace (d + 1)%nat with (S d) by lia.
    + unfold queries. rewrite List.filter_app, length_app.
      fold (queries (polling_trace w job_prefix d 0)).
      rewrite queries_polling_trace. simpl. lia.
Qed.

Lemma monitor_sleeps_then_queries_witness :
  ∃ d, polling_trace sample_world "Nanopolish_7_" 1 O ++ final_round
       = polling_trace sample_world "Nanopolish_7_" d O ++ final_round
     ∧ sleeps (polling_trace sample_world "Nanopolish_7_" 1 O ++ final_round)
       = replicate (S d) 60
     ∧ queries (polling_trace sample_world "Nanopolish_7_" 1 O ++ final_round) = S d.
Proof.
  apply (proj2 (monitor_sleeps_then_queries sample_world "Nanopolish_7_") 5%nat).
  reflexivity.
Defined.

(** C8 as stated fails: with no job of the run listed at the first query,
    the loop has still slept 60 seconds before that query. *)
Lemma monitor_first_sleep_counterexample :
  wait_for_jobs quiet_world "Nanopolish_7_" 3 O
  = ([Sleep 60; Shell squeue_command; Stdout (done_message +:+ nl)], Returned tt)
  ∧ idle quiet_world "Nanopolish_7_" O
  ∧ sleeps (trace (wait_for_jobs quiet_world "Nanopolish_7_" 3 O)) = [60]
  ∧ sleeps (trace (wait_for_jobs quiet_world "Nanopolish_7_" 3 O)) ≠ [].
Proof. split_and!; [reflexivity..|done]. Qed.

(** ** Two runs on one queue *)

Section occurrences.
Import Py.

Lemma startswith_cut p : ∀ u c v,
  c ∉ chars p → startswith p (u +:+ String c v) = true → startswith p u = true.
Proof.
  induction p as [|a p IH]; intros u c v Hc; [done|].
  destruct u as [|b u].
  - change (EmptyString +:+ String c v) with (String c v). simpl.
    intros [->%bool_decide_eq_true _]%andb_true_iff. destruct Hc. simpl. by left.
  - change (String b u +:+ String c v) with (String b (u +:+ String c v)). simpl.
    intros [-> H]%andb_true_iff. simpl. apply IH in H; [done|].
    intros ?. apply Hc. simpl. by right.
Qed.

Lemma contains_cons p c s : contains p s = true → contains p (String c s) = true.
Proof. intros H. simpl. rewrite H. apply orb_true_r. Qed.

(** An occurrence cannot straddle a character the pattern does not have. *)
Lemma contains_cut p c u : ∀ v,
  c ∉ chars p → contains p (u +:+ String c v) = true →
  contains p u = true ∨ contains p v = true.
Proof.
  induction u as [|b u IH]; intros v Hc.
  - change (EmptyString +:+ String c v) with (String c v). simpl.
    intros [H|H]%orb_true_iff; [|by right].
    left. apply (startswith_cut p EmptyString c v) in H; [|done].
    simpl. by rewrite H.
  - change (String b u +:+ String c v) with (String b (u +:+ String c v)).
    simpl. intros [H|H]%orb_true_iff.
    + left. apply (startswith_cut p (String b u) c v) in H; [|done].
      simpl in H. by rewrite H.
    + apply IH in H; [|done]. destruct H as [H|H]; [left|by right].
      by apply contains_cons.
Qed.

(** An occurrence cannot start inside a stretch that lacks the pattern's
    first character. *)
Lemma contains_skip a p u : ∀ v,
  a ∉ chars u → contains (String a p) (u +:+ v) = true →
  contains (String a p) v = true.
Proof.
  induction u as [|b u IH]; intros v Ha; [done|].
  change (String b u +:+ v) with (String b (u +:+ v)).
  simpl. intros [H|H]%orb_true_iff.
  - apply andb_true_iff in H as [->%bool_decide_eq_true _].
    destruct Ha. simpl. by left.
  - apply IH; [|done]. intros ?. apply Ha. simpl. by right.
Qed.

Lemma contains_length p s :
  contains p s = true → (String.length p ≤ String.length s)%nat.
Proof.
  intros (a & b & H)%contains_occurs. rewrite !length_chars, H, !length_app. lia.
Qed.

Lemma chars_truncate n : ∀ s, chars (truncate n s) = take n (chars s).
Proof. induction n as [|n IH]; intros [|c s]; simpl; by rewrite ?IH. Qed.

Lemma contains_truncate p n s :
  contains p (truncate n s) = true → contains p s = true.
Proof.
  rewrite !contains_occurs, chars_truncate. intros (a & b & H).
  exists a, (b ++ drop n (chars s)).
  trans (take n (chars s) ++ drop n (chars s)); [by rewrite take_drop|].
  rewrite H. by rewrite <- !app_assoc.
Qed.

Lemma chars_spaces n : chars (spaces n) = replicate n " "%char.
Proof. induction n as [|n IH]; [done|]. simpl. by rewrite <- IH. Qed.

Lemma length_field width s :
  String.length (rjust width (truncate width s)) = width.
Proof.
  unfold rjust. rewrite !length_chars, chars_app, length_app, chars_spaces.
  rewrite length_replicate, chars_truncate, length_take. lia.
Qed.

End occurrences.

Section prefixes.
Import Py.

Lemma pretty_N_char_digit y : is_digit (pretty_N_char y).
Proof.
  unfold pretty_N_char, is_digit, code.
  repeat case_match; simpl; lia.
Qed.

Lemma pretty_N_go_digits x : ∀ s,
  ∃ d, pretty_N_go x s = d +:+ s ∧ Forall is_digit (chars d)
     ∧ ((0 < x)%N → d ≠ EmptyString).
Proof.
  induction (N.lt_wf_0 x) as [x _ IH]; intros s.
  destruct (decide (x = 0%N)) as [->|Hx].
  - exists EmptyString. rewrite pretty_N_go_0. split_and!; [done|constructor|lia].
  - rewrite pretty_N_go_step by lia.
    destruct (IH (x `div` 10)%N) with (s := String (pretty_N_char (x `mod` 10)) s)
      as (d & -> & Hd & _).
    { apply N.div_lt; lia. }
    exists (d +:+ String (pretty_N_char (x `mod` 10)) EmptyString). split_and!.
    + rewrite app_assoc_s. reflexivity.
    + rewrite chars_app. apply Forall_app. split; [done|].
      apply Forall_cons. split; [apply pretty_N_char_digit|constructor].
    + intros _ H. apply (f_equal chars) in H. rewrite chars_app in H.
      by apply app_eq_nil in H as [_ ?].
Qed.

(** [str(pid)] is a non-empty string of decimal digits. *)
Lemma str_N_digits n :
  Forall is_digit (chars (str (Z.of_N n))) ∧ str (Z.of_N n) ≠ EmptyString.
Proof.
  destruct n as [|p]; simpl.
  - split; [|done]. repeat constructor; unfold is_digit, code; simpl; lia.
  - unfold str, pretty, pretty_Z, pretty, pretty_positive, pretty, pretty_N.
    rewrite decide_False by done.
    destruct (pretty_N_go_digits (N.pos p) EmptyString) as (d & -> & Hd & Hne).
    assert (d +:+ EmptyString = d) as ->.
    { apply chars_inj. rewrite chars_app. simpl. apply app_nil_r. }
    split; [done|]. apply Hne. lia.
Qed.

Lemma str_N_inj p q : str (Z.of_N p) = str (Z.of_N q) → p = q.
Proof. unfold str. intros H%(inj pretty). lia. Qed.

Lemma startswith_app_cancel a p s : startswith (a +:+ p) (a +:+ s) = startswith p s.
Proof.
  induction a as [|c a IH]; [done|].
  change (startswith (String c (a +:+ p)) (String c (a +:+ s)) = startswith p s).
  simpl. by rewrite bool_decide_true, IH.
Qed.

Lemma digits_delimited dq : ∀ dp rest,
  Forall is_digit (chars dq) → Forall is_digit (chars dp) →
  startswith (dq +:+ "_") (dp +:+ "_" +:+ rest) = true → dq = dp.
Proof.
  assert (¬ is_digit "_"%char) as Hu by (unfold is_digit, code; simpl; lia).
  induction dq as [|a dq IH]; intros [|b dp] rest Hq Hp; simpl in Hq, Hp.
  - done.
  - change (startswith (String "_" EmptyString) (String b (dp +:+ "_" +:+ rest)) = true → EmptyString = String b dp).
    simpl. intros [<-%bool_decide_eq_true _]%andb_true_iff.
    by apply Forall_cons in Hp as [? _].
  - change (startswith (String a (dq +:+ "_")) (String "_" rest) = true → String a dq = EmptyString).
    simpl. intros [->%bool_decide_eq_true _]%andb_true_iff.
    by apply Forall_cons in Hq as [? _].
  - change (startswith (String a (dq +:+ "_")) (String b (dp +:+ "_" +:+ rest)) = true → String a dq = String b dp).
    simpl. intros [->%bool_decide_eq_true H]%andb_true_iff.
    apply Forall_cons in Hq as [_ Hq]. apply Forall_cons in Hp as [_ Hp].
    f_equal. by eapply IH.
Qed.

Lemma job_prefix_no_space pid :
  Forall is_digit (chars pid) → " "%char ∉ chars (job_prefix_of pid).
Proof.
  intros Hd. unfold job_prefix_of. rewrite !chars_app.
  rewrite !elem_of_app. intros [H|[H|H]].
  - simpl in H. rewrite list_elem_of_In in H. simpl in H. intuition discriminate.
  - rewrite Forall_forall in Hd. apply Hd in H. unfold is_digit, code in H.
    simpl in H. lia.
  - simpl in H. rewrite list_elem_of_In in H. simpl in H. intuition discriminate.
Qed.

Lemma job_prefix_length pid :
  pid ≠ EmptyString → (13 ≤ String.length (job_prefix_of pid))%nat.
Proof.
  intros Hne. unfold job_prefix_of. rewrite length_chars, !chars_app, !length_app.
  destruct pid; [done|]. simpl. lia.
Qed.

(** The prefix of one run occurs in the job name of another run only inside
    the range identifier. *)
Lemma foreign_prefix_in_job_name p q region :
  p ≠ q →
  contains (job_prefix_of (str (Z.of_N q))) (job_name_of p region) = true →
  contains (job_prefix_of (str (Z.of_N q))) region = true.
Proof.
  intros Hpq. unfold job_name_of, job_prefix_of.
  destruct (str_N_digits p) as [Hp _]. destruct (str_N_digits q) as [Hq _].
  set (dp := str (Z.of_N p)) in *. set (dq := str (Z.of_N q)) in *.
  rewrite (app_assoc_s "Nanopolish_"), (app_assoc_s dp).
  change ("Nanopolish_" +:+ dp +:+ "_" +:+ region)
    with (String "N" ("anopolish_" +:+ dp +:+ "_" +:+ region)).
  intros H. cbn [contains] in H. apply orb_true_iff in H as [H|H].
  - change (String "N" ("anopolish_" +:+ dp +:+ "_" +:+ region))
      with ("Nanopolish_" +:+ dp +:+ "_" +:+ region) in H.
    rewrite startswith_app_cancel in H.
    apply digits_delimited in H; [|done..].
    apply str_N_inj in H. congruence.
  - change ("Nanopolish_" +:+ dq +:+ "_")
      with (String "N" ("anopolish_" +:+ dq +:+ "_")) in *.
    assert ("anopolish_" +:+ dp +:+ "_" +:+ region
            = ("anopolish_" +:+ dp +:+ "_") +:+ region) as Hre
      by (by rewrite !app_assoc_s).
    rewrite Hre in H. apply contains_skip in H; [done|].
    rewrite !chars_app, !elem_of_app. intros [Hn|[Hn|Hn]].
    + simpl in Hn. rewrite list_elem_of_In in Hn. simpl in Hn. intuition discriminate.
    + rewrite Forall_forall in Hp. apply Hp in Hn. unfold is_digit, code in Hn.
      simpl in Hn. lia.
    + simpl in Hn. rewrite list_elem_of_In in Hn. simpl in Hn. intuition discriminate.
Qed.

Lemma foreign_prefix_not_in_line p q region job_id state :
  p ≠ q →
  contains (job_prefix_of (str (Z.of_N q))) region = false →
  contains (job_prefix_of (str (Z.of_N q)))
    (squeue_line (job_name_of p region) job_id state) = false.
Proof.
  intros Hpq Hregion. apply not_true_is_false. intros H.
  destruct (str_N_digits q) as [Hq Hne].
  pose proof (job_prefix_no_space _ Hq) as Hsp.
  pose proof (job_prefix_length _ Hne) as Hlen.
  unfold squeue_line in H.
  apply contains_cut in H; [|done]. destruct H as [H|H].
  - unfold rjust in H.
    change (job_prefix_of (str (Z.of_N q)))
      with (String "N" ("anopolish_" +:+ str (Z.of_N q) +:+ "_")) in H.
    apply contains_skip in H.
    + apply contains_truncate in H.
      apply foreign_prefix_in_job_name in H; [|done]. congruence.
    + rewrite chars_spaces. intros [? _]%elem_of_replicate. done.
  - apply contains_cut in H; [|done].
    destruct H as [H|H]; apply contains_length in H; rewrite length_field in H; lia.
Qed.

End prefixes.

(** C7, as amended.  For two runs with distinct process ids, the queue entry
    of a job of the one is not among the lines the other counts, provided the
    job's range identifier does not itself contain the other run's prefix;
    the lines a run counts all contain its own prefix. *)
Theorem other_runs_job_not_counted
    (p q : N) (region state : string) (job_id : N) (listing : string) :
  p ≠ q →
  Py.contains (job_prefix_of (Py.str (Z.of_N q))) region = false →
  (squeue_line (job_name_of p region) job_id state
     ∉ remaining_in (job_prefix_of (Py.str (Z.of_N q))) listing)
  ∧ (∀ line, line ∈ remaining_in (job_prefix_of (Py.str (Z.of_N q))) listing →
       Py.contains (job_prefix_of (Py.str (Z.of_N q))) line = true).
Proof.
  intros Hpq Hregion. unfold remaining_in. split.
  - intros [_ H]%elem_of_filter_bool.
    by rewrite foreign_prefix_not_in_line in H.
  - by intros line [_ H]%elem_of_filter_bool.
Qed.

Lemma other_runs_job_not_counted_witness :
  (squeue_line (job_name_of 7 "c:0-5") 11 "RUNNING"
     ∉ remaining_in (job_prefix_of (Py.str (Z.of_N 8)))
         (queue_header +:+ squeue_line (job_name_of 7 "c:0-5") 11 "RUNNING" +:+ nl))
  ∧ (∀ line,
       line ∈ remaining_in (job_prefix_of (Py.str (Z.of_N 8)))
                (queue_header +:+ squeue_line (job_name_of 7 "c:0-5") 11 "RUNNING"
                 +:+ nl) →
       Py.contains (job_prefix_of (Py.str (Z.of_N 8))) line = true).
Proof.
  apply (other_runs_job_not_counted 7 8 "c:0-5" "RUNNING" 11).
  - discriminate.
  - vm_compute. reflexivity.
Defined.

(** C7 as stated fails where a range identifier of one run contains the
    prefix of the other: the run with pid 2 counts the job that the run with
    pid 1 submitted for the range [Nanopolish_2_:0-10]. *)
Lemma shared_queue_counterexample :
  job_name_of 1 "Nanopolish_2_:0-10" = "Nanopolish_1_Nanopolish_2_:0-10"
  ∧ job_prefix_of (Py.str (Z.of_N (getpid shared_queue_world))) = "Nanopolish_2_"
  ∧ remaining_in "Nanopolish_2_" (squeue_out shared_queue_world O).2
    = [squeue_line "Nanopolish_1_Nanopolish_2_:0-10" 5 "RUNNING"]
  ∧ get_remaining_nanopolish_jobs shared_queue_world O "Nanopolish_2_"
    = ([Shell squeue_command], Returned 1%nat).
Proof. split_and!; vm_compute; reflexivity. Qed.

(** ** The run as a sequence of stages *)

Lemma bind_ext {A B} (m : M A) (f g : A → M B) :
  (∀ a, f a = g a) → m ≫= f = m ≫= g.
Proof. intros H. destruct m as [t [a|e|]]; unfold_M; [|done..]. by rewrite H. Qed.

Lemma bind_value {A B} (d : A) (m : M A) (f : A → M B) :
  m ≫= f = void m ≫= λ _, f (value d m).
Proof.
  unfold void, value. destruct m as [t [a|e|]]; unfold_M; [|done..].
  destruct (f a). by rewrite app_nil_r.
Qed.

Lemma bind_unit_r (m : M unit) : m ≫= (λ _, mret tt) = m.
Proof.
  destruct m as [t [[]|e|]]; unfold_M; [|done..]. by rewrite app_nil_r.
Qed.

(** [main] runs its stages in sequence. *)
Lemma main_stages w argv fuel : main w argv fuel = run_stages (stages w argv fuel).
Proof.
  unfold main, stages, run_stages.
  rewrite (bind_value 0 (int (threads_arg argv))). fold (threads_of argv).
  do 6 (apply bind_ext; intros _).
  fold (nanopolish_script argv "nanopolish_makerange.py"). fold (plan w argv).
  rewrite (bind_value [] (plan w argv)). fold (ranges_of w argv).
  do 9 (apply bind_ext; intros _).
  rewrite (bind_value ∅ (fill_incomplete (job_files w) (ranges_of w argv))).
  fold (filled_of w argv).
  repeat (apply bind_ext; intros _).
  symmetry. apply bind_unit_r.
Qed.

Global Instance returned_dec (s : M unit) : Decision (returned s).
Proof.
  unfold returned. destruct (outcome s) as [[]|e|]; [by left|by right..].
Defined.

Lemma returned_eq (s : M unit) : returned s → s = (trace s, Returned tt).
Proof. destruct s as [t r]. unfold returned. simpl. by intros ->. Qed.

Lemma run_stages_cons_returned s rest :
  returned s →
  run_stages (s :: rest)
  = (trace s ++ trace (run_stages rest), outcome (run_stages rest)).
Proof.
  intros Hs. simpl. rewrite (returned_eq s Hs). unfold_M.
  by destruct (run_stages rest).
Qed.

Lemma run_stages_cons_stopped s rest :
  ¬ returned s → run_stages (s :: rest) = s.
Proof.
  unfold returned. destruct s as [t [[]|e|]]; simpl; intros Hs; try done.
Qed.

(** Either every stage returns, or the run is the stages up to the first
    one that does not, and ends as that stage ends. *)
Lemma run_stages_cases l :
  (Forall returned l
   ∧ run_stages l = (mjoin (trace <$> l), Returned tt))
  ∨ (∃ i s, l !! i = Some s ∧ Forall returned (take i l) ∧ ¬ returned s
       ∧ run_stages l = (mjoin (trace <$> take i l) ++ trace s, outcome s)).
Proof.
  induction l as [|s l IH]; [by left|].
  destruct (decide (returned s)) as [Hs|Hs].
  - rewrite (run_stages_cons_returned _ _ Hs).
    destruct IH as [[Hall ->]|(i & s' & Hi & Hall & Hs' & ->)].
    + left. split; [by constructor|done].
    + right. exists (S i), s'. split_and!; [done|by constructor|done|].
      simpl. by rewrite <- app_assoc.
  - right. exists O, s. split_and!; [done|constructor|done|].
    rewrite (run_stages_cons_stopped _ _ Hs). by destruct s.
Qed.

(** An event of the run belongs to a stage before which all stages returned. *)
Lemma run_stages_event l ev :
  ev ∈ trace (run_stages l) →
  ∃ i s, l !! i = Some s ∧ ev ∈ trace s ∧ Forall returned (take i l).
Proof.
  assert (∀ k, ev ∈ mjoin (trace <$> take k l) →
            ∃ i s, l !! i = Some s ∧ ev ∈ trace s ∧ (i < k)%nat) as Hconcat.
  { intros k (t & Hev & (s & -> & Hs)%list_elem_of_fmap)%list_elem_of_join.
    apply list_elem_of_lookup in Hs as [i Hi].
    apply lookup_take_Some in Hi as [Hi ?]. by exists i, s. }
  destruct (run_stages_cases l) as [[Hall ->]|(i & s & Hi & Hall & Hs & ->)];
    rewrite trace_pair.
  - rewrite <- (take_ge l (length l)) at 1 by lia. intros (j & s & Hj & Hev & _)%Hconcat.
    exists j, s. split_and!; [done..|]. by apply Forall_take.
  - intros [(j & s' & Hj & Hev & Hlt)%Hconcat|Hev]%elem_of_app.
    + exists j, s'. split_and!; [done..|].
      replace j with (j `min` i)%nat by lia. rewrite <- take_take.
      by apply Forall_take.
    + by exists i, s.
Qed.

(** The events of a stage are in the run if all stages before it return. *)
Lemma run_stages_reached l i s ev :
  l !! i = Some s → Forall returned (take i l) → ev ∈ trace s →
  ev ∈ trace (run_stages l).
Proof.
  revert i. induction l as [|s' l IH]; intros i Hi Hall Hev; [done|].
  destruct i as [|i]; simpl in Hi.
  - injection Hi as ->. destruct (decide (returned s)) as [Hs|Hs].
    + rewrite (run_stages_cons_returned _ _ Hs), trace_pair. apply elem_of_app. by left.
    + by rewrite (run_stages_cons_stopped _ _ Hs).
  - simpl in Hall. apply Forall_cons in Hall as [Hs' Hall].
    rewrite (run_stages_cons_returned _ _ Hs'), trace_pair. apply elem_of_app.
    right. by eapply IH.
Qed.

(** A stage that does not return keeps the run from returning: the run ends
    as the first such stage ends. *)
Lemma run_stages_stopped l k sk :
  l !! k = Some sk → ¬ returned sk →
  ∃ i s, (i ≤ k)%nat ∧ l !! i = Some s ∧ Forall returned (take i l) ∧ ¬ returned s
    ∧ run_stages l = (mjoin (trace <$> take i l) ++ trace s, outcome s).
Proof.
  intros Hk Hsk.
  destruct (run_stages_cases l) as [[Hall _]|(i & s & Hi & Hall & Hs & Hrun)].
  - rewrite Forall_lookup in Hall. by apply Hall in Hk.
  - exists i, s. split_and!; try done.
    destruct (decide (i ≤ k)%nat); [done|].
    rewrite Forall_lookup in Hall. destruct Hsk. apply (Hall k).
    apply lookup_take_Some. split; [done|lia].
Qed.

(** ** What each stage does *)

Lemma trace_void {A} (m : M A) : trace (void m) = trace m.
Proof.
  unfold void. destruct m as [t [a|e|]]; unfold_M; [|done..]. apply app_nil_r.
Qed.

Lemma outcome_void {A} (m : M A) :
  outcome (void m)
  = match outcome m with
    | Returned _ => Returned tt
    | Raised e => Raised e
    | Polling => Polling
    end.
Proof. unfold void. by destruct m as [t [a|e|]]. Qed.

Lemma int_eq s :
  int s = ([], match Py.int s with Some n => Returned n | None => Raised ValueError end).
Proof. unfold int. by destruct (Py.int s). Qed.

Lemma run_eq command rc :
  run command rc
  = ([Shell command],
     if bool_decide (rc = 0) then Returned tt
     else Raised (CalledProcessError rc command)).
Proof. unfold run. unfold_M. by case_bool_decide. Qed.

Lemma mkdir_eq host path :
  Os.mkdir host path
  = if bool_decide (path ∈ host) then ([], Raised (FileExistsError path))
    else if bool_decide (Os.dirname path ∈ host) then ([Mkdir path], Returned tt)
    else ([], Raised (FileNotFoundError path)).
Proof. unfold Os.mkdir. by repeat case_bool_decide. Qed.

Lemma mapM_decode lines :
  mapM decode lines
  = ([], if forallb Py.utf8_valid lines then Returned lines
         else Raised UnicodeDecodeError).
Proof.
  induction lines as [|b lines IH]; [done|].
  simpl. rewrite IH. unfold decode, Py.decode.
  destruct (Py.utf8_valid b); [|done]. simpl.
  by destruct (forallb Py.utf8_valid lines).
Qed.

Lemma plan_eq w argv :
  plan w argv
  = ([Shell (makerange_command argv)],
     if bool_decide ((makerange_out w).1 = 0) then
       if forallb Py.utf8_valid (Py.bytes_splitlines (makerange_out w).2)
       then Returned (Py.bytes_splitlines (makerange_out w).2)
       else Raised UnicodeDecodeError
     else Raised (CalledProcessError (makerange_out w).1 (makerange_command argv))).
Proof.
  unfold plan, get_nanopolish_ranges, check_output.
  fold (makerange_command argv). unfold_M.
  case_bool_decide; [|done]. simpl. rewrite mapM_decode. simpl.
  by destruct (forallb _ _).
Qed.

(** The ranges the planner returns are single lines. *)
Lemma planned_ranges_one_line w argv x :
  x ∈ ranges_of w argv → Py.contains nl x = false.
Proof.
  unfold ranges_of, value. rewrite plan_eq, outcome_pair.
  case_bool_decide; [|by intros ?%elem_of_nil].
  destruct (forallb _ _); [|by intros ?%elem_of_nil].
  intros Hx%bytes_splitlines_go_one_line; [|apply not_elem_of_nil].
  apply not_true_is_false. by intros ?%contains_char.
Qed.

Lemma merge_stage_eq w argv :
  merge_stage w argv
  = ([ShellGlob (merge_command (nanopolish_script argv "nanopolish_merge.py")
                   (set_name_of argv))
        (Os.expand_polished (Os.listdir (filled_of w argv)))],
     if bool_decide (merge_rc w = 0) then Returned tt
     else Raised (CalledProcessError (merge_rc w)
                    (merge_command (nanopolish_script argv "nanopolish_merge.py")
                       (set_name_of argv)))).
Proof. unfold merge_stage, merge_results. unfold_M. by case_bool_decide. Qed.

(** The submissions: all accepted, or the trace ends at the first rejected
    one. *)
Lemma submit_jobs_cases w ne rf af jp ranges : ∀ i,
  only [KStdout; KShell] (submit_jobs w ne rf af jp ranges i)
  ∧ outcome (submit_jobs w ne rf af jp ranges i) ≠ Polling
  ∧ (returned (submit_jobs w ne rf af jp ranges i)
     ↔ ∀ j, (j < length ranges)%nat → sbatch_rc w (i + j) = 0).
Proof.
  induction ranges as [|r ranges IH]; intros i.
  - split_and!; [by intros ev ?%elem_of_nil|done|].
    split; [intros _ j ?; simpl in *; lia|done].
  - destruct (IH (S i)) as (Honly & Hpoll & Hret). simpl submit_jobs.
    rewrite run_eq. unfold_M. unfold returned, only.
    destruct (submit_jobs w ne rf af jp ranges (S i)) as [t r'] eqn:Hsub.
    unfold returned, only in *. simpl in *.
    case_bool_decide as Hrc; simpl.
    + split_and!.
      * intros ev [->|[->|Hev]%elem_of_cons]%elem_of_cons; simpl.
        -- by left.
        -- right. by left.
        -- by apply Honly.
      * done.
      * rewrite Hret. split.
        -- intros H [|j] ?; [by rewrite Nat.add_0_r|].
           replace (i + S j)%nat with (S (i + j))%nat by lia. apply H. lia.
        -- intros H j ?. replace (S (i + j))%nat with (i + S j)%nat by lia.
           apply H. lia.
    + split_and!.
      * intros ev [->|[->|Hev%elem_of_nil]%elem_of_cons]%elem_of_cons; simpl;
          [by left|right; by left|done].
      * done.
      * split; [done|]. intros H. destruct Hrc. rewrite <- (Nat.add_0_r i).
        apply H. lia.
Qed.

Lemma only_Forall ks (t : list event) (r : result unit) :
  Forall (λ ev, kind_of ev ∈ ks) t → only ks (t, r).
Proof. intros H ev Hev. rewrite Forall_forall in H. by apply H. Qed.

Lemma wait_for_jobs_only w jp fuel : ∀ k,
  only [KSleep; KShell; KStdout] (wait_for_jobs w jp fuel k).
Proof.
  induction fuel as [|fuel IH]; intros k.
  - by intros ev ?%elem_of_nil.
  - rewrite wait_for_jobs_step.
    destruct (query_result w jp k) as [[|n]|e|]; apply only_Forall;
      unfold final_round, waiting_round; simpl; repeat constructor.
    apply Forall_forall. apply IH.
Qed.

Lemma write_placeholder_eq ws x :
  write_placeholder ws x
  = match range_start x, range_end x with
    | Some s, Some e =>
        if Py.contains (String Py.NUL EmptyString) (fasta_name x)
        then ([], Raised ValueError)
        else if Py.contains "/" (fasta_name x)
        then ([], Raised (FileNotFoundError (fasta_name x)))
        else ([WriteFile (fasta_name x) (placeholder x (e - s))],
              Returned (<[fasta_name x := placeholder x (e - s)]> ws))
    | _, _ => ([], Raised ValueError)
    end.
Proof.
  unfold write_placeholder, int, Os.write_text.
  fold (range_start x). fold (range_end x).
  destruct (range_start x) as [s|]; [|done].
  destruct (range_end x) as [e|]; [|done].
  destruct (Py.contains _ _); [done|]. by destruct (Py.contains _ _).
Qed.

Lemma fill_incomplete_only ws ranges :
  only [KStdout; KWrite] (void (fill_incomplete ws ranges))
  ∧ outcome (fill_incomplete ws ranges) ≠ Polling.
Proof.
  assert (∀ l ws0, (∀ ev, ev ∈ trace (write_placeholders ws0 l) →
                      kind_of ev ∈ [KStdout; KWrite])
                   ∧ outcome (write_placeholders ws0 l) ≠ Polling) as Hw.
  { induction l as [|x l IH]; intros ws0; [split; [by intros ev ?%elem_of_nil|done]|].
    simpl. rewrite write_placeholder_eq.
    destruct (range_start x) as [s|]; [|split; [by intros ev ?%elem_of_nil|done]].
    destruct (range_end x) as [e|]; [|split; [by intros ev ?%elem_of_nil|done]].
    destruct (Py.contains _ _); [split; [by intros ev ?%elem_of_nil|done]|].
    destruct (Py.contains _ _); [split; [by intros ev ?%elem_of_nil|done]|].
    unfold_M. destruct (IH (<[fasta_name x := placeholder x (e - s)]> ws0))
      as [Hev Hpoll].
    destruct (write_placeholders _ l) as [t r]. simpl in *. split; [|done].
    intros ev [->|H]%elem_of_cons; [right; by left|by apply Hev]. }
  unfold only. rewrite trace_void. unfold fill_incomplete.
  destruct (Hw (incomplete ws ranges) ws) as [Hev Hpoll].
  destruct (write_placeholders ws (incomplete ws ranges)) as [t r].
  simpl in *. case_bool_decide; unfold_M.
  - split; [|done]. intros ev Hin. by apply Hev.
  - split; [|done]. intros ev [->|Hin]%elem_of_cons; [by left|by apply Hev].
Qed.

Lemma submit_jobs_fails_last w ne rf af jp ranges : ∀ i,
  fails_last (submit_jobs w ne rf af jp ranges i).
Proof.
  induction ranges as [|r ranges IH]; intros i rc cmd; [done|].
  simpl submit_jobs. rewrite run_eq. unfold_M.
  specialize (IH (S i) rc cmd).
  destruct (submit_jobs w ne rf af jp ranges (S i)) as [t r'].
  case_bool_decide as Hrc; simpl in *.
  - intros [Hne (t' & [->|[inputs ->]])]%IH; (split; [done|]).
    + eexists (_ :: _ :: t'). by left.
    + eexists (_ :: _ :: t'). right. by exists inputs.
  - intros [= <- <-]. split; [done|]. eexists [_]. by left.
Qed.

Lemma wait_for_jobs_fails_last w jp fuel : ∀ k,
  fails_last (wait_for_jobs w jp fuel k).
Proof.
  induction fuel as [|fuel IH]; intros k rc cmd; [done|].
  rewrite wait_for_jobs_step.
  destruct (query_result w jp k) as [[|n]|e|] eqn:Hq; rewrite ?trace_pair, ?outcome_pair.
  - done.
  - intros [Hne (t' & [->|[inputs ->]])]%IH; (split; [done|]).
    + exists (waiting_round w jp k ++ t'). left. by rewrite <- app_assoc.
    + exists (waiting_round w jp k ++ t'). right. exists inputs.
      by rewrite <- app_assoc.
  - intros [= ->]. revert Hq.
    unfold query_result, get_remaining_nanopolish_jobs, check_output, decode.
    destruct (squeue_out w k) as [rc' out]. unfold_M.
    case_bool_decide as Hrc; simpl.
    + by destruct (Py.decode out).
    + intros [= <- <-]. split; [done|]. exists [Sleep 60]. by left.
  - done.
Qed.

Lemma fill_incomplete_raises ws ranges rc cmd :
  outcome (fill_incomplete ws ranges) ≠ Raised (CalledProcessError rc cmd).
Proof.
  assert (∀ l ws0, outcome (write_placeholders ws0 l)
                   ≠ Raised (CalledProcessError rc cmd)) as Hw.
  { induction l as [|x l IH]; intros ws0; [done|].
    simpl. rewrite write_placeholder_eq.
    destruct (range_start x) as [s|]; [|done].
    destruct (range_end x) as [e|]; [|done].
    destruct (Py.contains _ _); [done|]. destruct (Py.contains _ _); [done|].
    unfold_M. specialize (IH (<[fasta_name x := placeholder x (e - s)]> ws0)).
    by destruct (write_placeholders _ l). }
  unfold fill_incomplete. specialize (Hw (incomplete ws ranges) ws).
  destruct (write_placeholders ws (incomplete ws ranges)) as [t r].
  by case_bool_decide.
Qed.

Lemma print_eq text : print text = ([Stdout (text +:+ nl)], Returned tt).
Proof. done. Qed.

Lemma emit_eq ev : emit ev = ([ev], Returned tt).
Proof. done. Qed.

Ltac split_stages :=
  repeat match goal with
         | |- Forall2 _ (_ :: _) (_ :: _) => apply List.Forall2_cons
         | |- Forall2 _ [] [] => apply List.Forall2_nil
         | |- Forall _ (_ :: _) => apply List.Forall_cons
         | |- Forall _ [] => apply List.Forall_nil
         end.

Lemma stages_only w argv fuel : Forall2 only stage_kinds (stages w argv fuel).
Proof.
  unfold stage_kinds, stages.
  split_stages;
    rewrite ?print_eq, ?emit_eq, ?run_eq, ?merge_stage_eq;
    try (apply only_Forall; repeat constructor).
  - intros ev. rewrite trace_void, int_eq. by intros ?%elem_of_nil.
  - rewrite mkdir_eq. repeat case_bool_decide; apply only_Forall; repeat constructor.
  - intros ev. rewrite trace_void, plan_eq, trace_pair.
    intros ->%list_elem_of_singleton. by left.
  - apply submit_jobs_cases.
  - apply wait_for_jobs_only.
  - apply fill_incomplete_only.
Qed.

Lemma stages_fail_last w argv fuel : Forall fails_last (stages w argv fuel).
Proof.
  unfold stages.
  split_stages; rewrite ?print_eq, ?emit_eq; try (by intros rc cmd).
  - intros rc cmd. rewrite outcome_void, int_eq, outcome_pair.
    by destruct (Py.int _).
  - intros rc cmd. rewrite mkdir_eq. by repeat case_bool_decide.
  - intros rc cmd. rewrite outcome_void, trace_void, plan_eq, outcome_pair, trace_pair.
    case_bool_decide as Hrc; [by destruct (forallb _ _)|].
    intros [= <- <-]. split; [done|]. exists []. by left.
  - intros rc cmd. rewrite run_eq, outcome_pair, trace_pair.
    case_bool_decide as Hrc; [done|]. intros [= <- <-]. split; [done|].
    exists []. by left.
  - intros rc cmd. rewrite run_eq, outcome_pair, trace_pair.
    case_bool_decide as Hrc; [done|]. intros [= <- <-]. split; [done|].
    exists []. by left.
  - intros rc cmd. rewrite run_eq, outcome_pair, trace_pair.
    case_bool_decide as Hrc; [done|]. intros [= <- <-]. split; [done|].
    exists []. by left.
  - apply submit_jobs_fails_last.
  - apply wait_for_jobs_fails_last.
  - intros rc cmd. rewrite outcome_void.
    pose proof (fill_incomplete_raises (job_files w) (ranges_of w argv) rc cmd) as H.
    destruct (outcome (fill_incomplete _ _)); [done| |done]. by intros [= ->].
  - intros rc cmd. rewrite merge_stage_eq, outcome_pair, trace_pair.
    case_bool_decide as Hrc; [done|]. intros [= <- <-]. split; [done|].
    exists []. right. by eexists.
Qed.

Lemma stages_poll w argv fuel i s :
  stages w argv fuel !! i = Some s → i ≠ 15%nat → outcome s ≠ Polling.
Proof.
  assert (Forall2 (λ s (i : nat), i ≠ 15%nat → outcome s ≠ Polling)
            (stages w argv fuel) (seq 0 20)) as Hall.
  { unfold stages. simpl seq. split_stages; intros Hne; try done;
      rewrite ?outcome_void, ?int_eq, ?plan_eq, ?run_eq, ?merge_stage_eq,
        ?mkdir_eq, ?outcome_pair.
    - by destruct (Py.int _).
    - by repeat case_bool_decide.
    - case_bool_decide; [by destruct (forallb _ _)|done].
    - by case_bool_decide.
    - by case_bool_decide.
    - by case_bool_decide.
    - apply submit_jobs_cases.
    - pose proof (proj2 (fill_incomplete_only (job_files w) (ranges_of w argv))) as H.
      by destruct (outcome (fill_incomplete _ _)).
    - by case_bool_decide. }
  intros Hi Hne.
  destruct (Forall2_lookup_l _ _ _ _ _ Hall Hi) as (j & Hj & Hp).
  apply lookup_seq in Hj as [-> _]. by apply Hp.
Qed.

(** ** Where a run stops *)

Lemma not_returned_cases (s : M unit) :
  ¬ returned s → outcome s = Polling ∨ ∃ e, outcome s = Raised e.
Proof.
  unfold returned. destruct (outcome s) as [[]|e|]; [done|right; by exists e|by left].
Qed.

Lemma main_stopped w argv fuel k sk :
  stages w argv fuel !! k = Some sk → ¬ returned sk →
  ∃ i s, (i ≤ k)%nat ∧ stages w argv fuel !! i = Some s
    ∧ Forall returned (take i (stages w argv fuel)) ∧ ¬ returned s
    ∧ main w argv fuel
      = (mjoin (trace <$> take i (stages w argv fuel)) ++ trace s, outcome s).
Proof. rewrite main_stages. apply run_stages_stopped. Qed.

(** If a stage up to the wait loop fails, the run ends in an exception. *)
Lemma main_raises w argv fuel k sk :
  stages w argv fuel !! k = Some sk → ¬ returned sk → outcome sk ≠ Polling →
  (k ≤ 15)%nat → ∃ e, outcome (main w argv fuel) = Raised e.
Proof.
  intros Hk Hsk Hpoll Hle.
  destruct (main_stopped _ _ _ _ _ Hk Hsk) as (i & s & Hi & Hs & _ & Hns & ->).
  rewrite outcome_pair. destruct (not_returned_cases s Hns) as [Hp|?]; [|done].
  destruct (decide (i = 15%nat)) as [->|Hne].
  - assert (k = 15%nat) as -> by lia. congruence.
  - by apply stages_poll in Hs.
Qed.

(** Every event of a run comes from a stage all of whose predecessors
    returned, and is of a kind that stage produces. *)
Lemma main_event w argv fuel ev :
  ev ∈ trace (main w argv fuel) →
  ∃ i s ks, stages w argv fuel !! i = Some s ∧ stage_kinds !! i = Some ks
    ∧ kind_of ev ∈ ks ∧ ev ∈ trace s
    ∧ Forall returned (take i (stages w argv fuel)).
Proof.
  rewrite main_stages. intros (i & s & Hi & Hev & Hall)%run_stages_event.
  destruct (Forall2_lookup_r _ _ _ _ _ (stages_only w argv fuel) Hi)
    as (ks & Hks & Honly).
  exists i, s, ks. split_and!; try done. by apply Honly.
Qed.

(** No event comes from a stage after one that did not return. *)
Lemma main_event_before w argv fuel k sk ev :
  stages w argv fuel !! k = Some sk → ¬ returned sk →
  ev ∈ trace (main w argv fuel) →
  ∃ i s ks, (i ≤ k)%nat ∧ stages w argv fuel !! i = Some s
    ∧ stage_kinds !! i = Some ks ∧ kind_of ev ∈ ks ∧ ev ∈ trace s.
Proof.
  intros Hk Hsk (i & s & ks & Hi & Hks & Hkind & Hev & Hall)%main_event.
  exists i, s, ks. split_and!; try done.
  destruct (decide (i ≤ k)%nat); [done|].
  rewrite Forall_lookup in Hall. destruct Hsk. apply (Hall k).
  apply lookup_take_Some. split; [done|lia].
Qed.

Lemma main_kinds_before w argv fuel k sk ev :
  stages w argv fuel !! k = Some sk → ¬ returned sk →
  ev ∈ trace (main w argv fuel) →
  kind_of ev ∈ mjoin (take (S k) stage_kinds).
Proof.
  intros Hk Hsk (i & s & ks & Hi & _ & Hks & Hkind & _)%(main_event_before _ _ _ k sk);
    [|done..].
  apply list_elem_of_join. exists ks. split; [done|].
  apply list_elem_of_lookup. exists i. apply lookup_take_Some. split; [done|lia].
Qed.

Ltac stage_cases i Hi :=
  unfold stages in Hi;
  repeat (destruct i as [|i]; [simpl in Hi; injection Hi as <-|try lia]).

Lemma exit_status_raised {A} (r : result A) e : r = Raised e → exit_status r = Some 1.
Proof. by intros ->. Qed.

Lemma mkdir_refused w argv fuel :
  temp_dir_of w argv ∈ host_dirs w ∨ Os.dirname (temp_dir_of w argv) ∉ host_dirs w →
  (Py.int (threads_arg argv) = None ∧ outcome (main w argv fuel) = Raised ValueError
   ∨ outcome (main w argv fuel)
     = outcome (Os.mkdir (host_dirs w) (temp_dir_of w argv)))
  ∧ ¬ returned (Os.mkdir (host_dirs w) (temp_dir_of w argv))
  ∧ ∀ ev, ev ∈ trace (main w argv fuel) → kind_of ev = KStdout.
Proof.
  intros Hhost.
  assert (¬ returned (Os.mkdir (host_dirs w) (temp_dir_of w argv))) as Hmk.
  { rewrite mkdir_eq. unfold returned. repeat case_bool_decide; try done.
    by destruct Hhost. }
  assert (trace (Os.mkdir (host_dirs w) (temp_dir_of w argv)) = []) as Hnil.
  { rewrite mkdir_eq. repeat case_bool_decide; try done. by destruct Hhost. }
  assert (stages w argv fuel !! 2%nat
          = Some (Os.mkdir (host_dirs w) (temp_dir_of w argv))) as H2 by done.
  split_and!; [|done|].
  - destruct (main_stopped _ _ _ _ _ H2 Hmk) as (i & s & Hle & Hi & _ & Hns & ->).
    rewrite outcome_pair. stage_cases i Hi.
    + left. revert Hns. unfold returned.
      rewrite outcome_void, int_eq, outcome_pair. by destruct (Py.int _).
    + by destruct Hns.
    + by right.
  - intros ev (i & s & ks & Hle & Hi & Hks & Hkind & Hev)%(main_event_before _ _ _ _ _ _ H2 Hmk).
    stage_cases i Hi; simpl in Hks; injection Hks as <-.
    + by apply elem_of_nil in Hkind.
    + by apply list_elem_of_singleton in Hkind.
    + rewrite Hnil in Hev. by apply elem_of_nil in Hev.
Qed.

(** C10. The working directory is made with a plain [mkdir]: when
    [<output_dir>/<pid>_temp_dir] exists already the run ends in
    [FileExistsError], and when the output directory itself is missing it
    ends in [FileNotFoundError]; either way the exit status is 1 and nothing
    but output to the terminal has happened: no directory made or entered, no
    command run.  (A thread count that is not an integer ends the run even
    earlier, in [ValueError].) *)
Theorem workspace_must_be_new (w : World) (argv : Args) (fuel : nat) :
  (temp_dir_of w argv ∈ host_dirs w →
     (outcome (main w argv fuel) = Raised (FileExistsError (temp_dir_of w argv))
      ∨ Py.int (threads_arg argv) = None
        ∧ outcome (main w argv fuel) = Raised ValueError)
     ∧ exit_status (outcome (main w argv fuel)) = Some 1
     ∧ ∀ ev, ev ∈ trace (main w argv fuel) → kind_of ev = KStdout)
  ∧ (temp_dir_of w argv ∉ host_dirs w →
     Os.dirname (temp_dir_of w argv) ∉ host_dirs w →
     (outcome (main w argv fuel) = Raised (FileNotFoundError (temp_dir_of w argv))
      ∨ Py.int (threads_arg argv) = None
        ∧ outcome (main w argv fuel) = Raised ValueError)
     ∧ exit_status (outcome (main w argv fuel)) = Some 1
     ∧ ∀ ev, ev ∈ trace (main w argv fuel) → kind_of ev = KStdout).
Proof.
  split.
  - intros Hex. destruct (mkdir_refused w argv fuel) as (Hout & _ & Hev); [by left|].
    rewrite mkdir_eq, bool_decide_true in Hout by done. rewrite outcome_pair in Hout.
    split_and!; [|destruct Hout as [[_ ->]| ->]; done|done].
    destruct Hout as [?| ->]; [by right|by left].
  - intros Hnew Hparent.
    destruct (mkdir_refused w argv fuel) as (Hout & _ & Hev); [by right|].
    rewrite mkdir_eq, !bool_decide_false in Hout by done.
    rewrite outcome_pair in Hout.
    split_and!; [|destruct Hout as [[_ ->]| ->]; done|done].
    destruct Hout as [?| ->]; [by right|by left].
Qed.

Lemma workspace_must_be_new_witness :
  (outcome (main stale_world sample_args 3)
   = Raised (FileExistsError (temp_dir_of stale_world sample_args))
   ∨ Py.int (threads_arg sample_args) = None
     ∧ outcome (main stale_world sample_args 3) = Raised ValueError)
  ∧ exit_status (outcome (main stale_world sample_args 3)) = Some 1
  ∧ ∀ ev, ev ∈ trace (main stale_world sample_args 3) → kind_of ev = KStdout.
Proof.
  apply (proj1 (workspace_must_be_new stale_world sample_args 3)).
  apply (bool_decide_unpack _). vm_compute. exact I.
Defined.

Lemma plan_failed w argv :
  (makerange_out w).1 ≠ 0 →
  ¬ returned (void (plan w argv))
  ∧ outcome (void (plan w argv))
    = Raised (CalledProcessError (makerange_out w).1 (makerange_command argv)).
Proof.
  intros Hrc. unfold returned.
  rewrite outcome_void, plan_eq, outcome_pair, bool_decide_false by done. done.
Qed.

(** C5, as amended.  When the range tool exits with a non-zero status the run
    ends in an exception, with exit status 1, and apart from output to the
    terminal, making and entering the working directory, and the range
    command itself, nothing has happened: no alignment, no submission.
    When it exits with status 0 and prints no line, the run goes on with an
    empty list of ranges: the alignment command is run and no job is
    submitted. *)
Theorem planner_failure_is_fatal (w : World) (argv : Args) (fuel : nat) :
  ((makerange_out w).1 ≠ 0 →
     (∃ e, outcome (main w argv fuel) = Raised e)
     ∧ exit_status (outcome (main w argv fuel)) = Some 1
     ∧ (∀ ev, ev ∈ trace (main w argv fuel) →
          kind_of ev ∈ [KStdout; KMkdir; KChdir]
          ∨ ev = Shell (makerange_command argv))
     ∧ (Forall returned (take 6 (stages w argv fuel)) →
          outcome (main w argv fuel)
          = Raised (CalledProcessError (makerange_out w).1 (makerange_command argv))))
  ∧ ((makerange_out w).1 = 0 →
     Py.bytes_splitlines (makerange_out w).2 = [] →
     Forall returned (take 6 (stages w argv fuel)) →
     ranges_of w argv = []
     ∧ Shell (align_command argv (threads_of argv)) ∈ trace (main w argv fuel)
     ∧ trace (submit_stage w argv) = []).
Proof.
  split.
  - intros Hrc. destruct (plan_failed w argv Hrc) as [Hns Hout].
    assert (stages w argv fuel !! 6%nat = Some (void (plan w argv))) as H6 by done.
    assert (∃ e, outcome (main w argv fuel) = Raised e) as [e He].
    { eapply (main_raises _ _ _ 6%nat); [done..| |lia]. by rewrite Hout. }
    split_and!.
    + by exists e.
    + by rewrite He.
    + intros ev (i & s & ks & Hle & Hi & Hks & Hkind & Hev)%(main_event_before _ _ _ _ _ _ H6 Hns).
      stage_cases i Hi; simpl in Hks; injection Hks as <-;
        try (left; apply list_elem_of_singleton in Hkind as ->;
             repeat constructor; fail).
      * by apply elem_of_nil in Hkind.
      * right. rewrite trace_void, plan_eq, trace_pair in Hev.
        by apply list_elem_of_singleton in Hev.
    + intros Hall.
      destruct (main_stopped _ _ _ _ _ H6 Hns) as (i & s & Hle & Hi & _ & Hs & ->).
      rewrite outcome_pair.
      destruct (decide (i = 6%nat)) as [->|Hne]; [congruence|].
      rewrite Forall_lookup in Hall. destruct Hs. apply (Hall i).
      apply lookup_take_Some. split; [done|lia].
  - intros Hrc Hlines Hall.
    assert (plan w argv = ([Shell (makerange_command argv)], Returned [])) as Hplan.
    { rewrite plan_eq, bool_decide_true, Hlines by done. done. }
    assert (ranges_of w argv = []) as Hranges.
    { unfold ranges_of, value. by rewrite Hplan. }
    split_and!; [done| |].
    + rewrite main_stages.
      apply (run_stages_reached _ 9%nat (run (align_command argv (threads_of argv))
                                           (align_rc w))); [done| |].
      * unfold stages in *. simpl take in *.
        repeat (apply Forall_cons in Hall as [? Hall]).
        split_stages; try done.
        unfold returned. by rewrite outcome_void, Hplan.
      * rewrite run_eq, trace_pair. by left.
    + unfold submit_stage. by rewrite Hranges.
Qed.

Lemma planner_failure_is_fatal_witness :
  (∃ e, outcome (main failing_planner_world sample_args 3) = Raised e)
  ∧ exit_status (outcome (main failing_planner_world sample_args 3)) = Some 1
  ∧ (∀ ev, ev ∈ trace (main failing_planner_world sample_args 3) →
       kind_of ev ∈ [KStdout; KMkdir; KChdir]
       ∨ ev = Shell (makerange_command sample_args))
  ∧ (Forall returned (take 6 (stages failing_planner_world sample_args 3)) →
       outcome (main failing_planner_world sample_args 3)
       = Raised (CalledProcessError (makerange_out failing_planner_world).1
                   (makerange_command sample_args))).
Proof.
  apply (proj1 (planner_failure_is_fatal failing_planner_world sample_args 3)).
  discriminate.
Defined.

(** C5 as stated fails for a range tool that exits with status 0 and prints
    nothing: the run does not stop there; it aligns the reads, indexes them,
    waits a round and only fails in the merge. *)
Lemma silent_planner_counterexample :
  Py.bytes_splitlines (makerange_out silent_planner_world).2 = []
  ∧ main silent_planner_world sample_args 3
    = ([Stdout (nl +:+ "Preparing to run Nanopolish for asm" +:+ nl);
        Mkdir "/out/7_temp_dir";
        Stdout ("Moving into /out/7_temp_dir" +:+ nl);
        Chdir "/out/7_temp_dir";
        Stdout "Getting ranges: ";
        Shell "python /opt/nanopolish/scripts/nanopolish_makerange.py /data/asm.fasta";
        Stdout nl;
        Stdout ("Aligning reads" +:+ nl);
        Shell "minimap2 -x map10k -a -t 4 /data/asm.fasta /data/reads.fastq | samtools sort -o reads.sorted.bam -T reads.tmp -";
        Shell "samtools index reads.sorted.bam";
        Stdout ("Running nanopolish index:" +:+ nl);
        Shell "/opt/nanopolish/nanopolish index -d /data/fast5 /data/reads.fastq";
        Stdout ("Launching SLURM jobs:" +:+ nl);
        Sleep 60;
        Shell squeue_command;
        Stdout ("All Nanopolish jobs are done!" +:+ nl);
        ShellGlob
          "python /opt/nanopolish/scripts/nanopolish_merge.py polished.*.fa > ../asm.fasta"
          ["polished.*.fa"]],
       Raised (CalledProcessError 1
         "python /opt/nanopolish/scripts/nanopolish_merge.py polished.*.fa > ../asm.fasta")).
Proof. split; vm_compute; reflexivity. Qed.

Lemma wait_for_jobs_raised w jp fuel k e :
  (k < fuel)%nat → (∀ j, (j < k)%nat → busy w jp j) →
  query_result w jp k = Raised e →
  outcome (wait_for_jobs w jp fuel O) = Raised e.
Proof.
  intros Hlt Hbusy Hq.
  replace fuel with (k + S (fuel - S k))%nat by lia.
  rewrite wait_for_jobs_busy_prefix by (intros j ?; by apply Hbusy).
  rewrite outcome_pair, wait_for_jobs_step. simpl. by rewrite Hq.
Qed.

Ltac kinds_in H :=
  simpl in H;
  repeat (apply elem_of_cons in H as [->|H]; [repeat constructor|]);
  by apply elem_of_nil in H.

Lemma main_fails_last w argv fuel : fails_last (main w argv fuel).
Proof.
  intros rc cmd. rewrite main_stages.
  destruct (run_stages_cases (stages w argv fuel))
    as [[_ ->]|(i & s & Hi & _ & _ & ->)]; [done|].
  rewrite outcome_pair, trace_pair. intros Hout.
  pose proof (stages_fail_last w argv fuel) as Hall.
  rewrite Forall_lookup in Hall.
  destruct (Hall i s Hi rc cmd Hout) as [Hrc (t & [->|[inputs ->]])];
    (split; [done|]); eexists (_ ++ t).
  - left. by rewrite <- app_assoc.
  - right. exists inputs. by rewrite <- app_assoc.
Qed.

(** The merge command is in the trace only when every stage before the merge
    returned. *)
Lemma merge_reached w argv fuel cmd inputs :
  ShellGlob cmd inputs ∈ trace (main w argv fuel) →
  Forall returned (take 17 (stages w argv fuel))
  ∧ trace (merge_stage w argv) = [ShellGlob cmd inputs].
Proof.
  intros (j & sj & ks & Hj & Hks & Hkind & Hin & Hret)%main_event.
  assert (j = 17%nat) as ->.
  { assert (Forall2 (λ ks (i : nat), KGlob ∈ ks → i = 17%nat)
              stage_kinds (seq 0 20)) as Hall.
    { unfold stage_kinds. simpl seq. split_stages; intros Hk; try done;
        repeat (apply elem_of_cons in Hk as [?|Hk]; [done|]);
        by apply elem_of_nil in Hk. }
    destruct (Forall2_lookup_l _ _ _ _ _ Hall Hks) as (n & Hn & Hp).
    apply lookup_seq in Hn as [-> _]. simpl in Hkind. by apply Hp. }
  split; [done|]. injection Hj as <-.
  rewrite merge_stage_eq, trace_pair in *.
  by apply list_elem_of_singleton in Hin as ->.
Qed.

(** C6. A fatal failure of an external command ends the run at once with
    exit status 1.  A rejected submission: the run ends in an exception and
    never sleeps or polls.  A failed queue query: the run ends in an
    exception before any placeholder is written or anything is merged.  A
    failed merge: the run does not return, the merge command is the last thing
    it did, and the working directory is not removed.  In general an escaping
    [CalledProcessError] carries a non-zero status and the command it names is
    the last event of the run.  A run that returns exits with status 0, and
    the last thing it did was to remove the working directory. *)
Theorem fatal_failures_halt (w : World) (argv : Args) (fuel : nat) :
  (∀ i, (i < length (ranges_of w argv))%nat → sbatch_rc w i ≠ 0 →
     (∃ e, outcome (main w argv fuel) = Raised e)
     ∧ exit_status (outcome (main w argv fuel)) = Some 1
     ∧ ∀ ev, ev ∈ trace (main w argv fuel) →
         kind_of ev ∈ [KStdout; KMkdir; KChdir; KShell])
  ∧ (∀ k e, (k < fuel)%nat →
     (∀ j, (j < k)%nat → busy w (job_prefix_of (pid_of w)) j) →
     query_result w (job_prefix_of (pid_of w)) k = Raised e →
     (∃ e', outcome (main w argv fuel) = Raised e')
     ∧ exit_status (outcome (main w argv fuel)) = Some 1
     ∧ ∀ ev, ev ∈ trace (main w argv fuel) →
         kind_of ev ∈ [KStdout; KMkdir; KChdir; KShell; KSleep])
  ∧ (merge_rc w ≠ 0 →
     ¬ returned (main w argv fuel)
     ∧ (∀ ev, ev ∈ trace (main w argv fuel) → kind_of ev ≠ KRmtree)
     ∧ (∀ cmd inputs, ShellGlob cmd inputs ∈ trace (main w argv fuel) →
          outcome (main w argv fuel) = Raised (CalledProcessError (merge_rc w) cmd)
          ∧ exit_status (outcome (main w argv fuel)) = Some 1
          ∧ ∃ t, trace (main w argv fuel) = t ++ [ShellGlob cmd inputs]))
  ∧ (∀ rc cmd, outcome (main w argv fuel) = Raised (CalledProcessError rc cmd) →
     rc ≠ 0
     ∧ ∃ t, trace (main w argv fuel) = t ++ [Shell cmd]
          ∨ ∃ inputs, trace (main w argv fuel) = t ++ [ShellGlob cmd inputs])
  ∧ (returned (main w argv fuel) →
     exit_status (outcome (main w argv fuel)) = Some 0
     ∧ ∃ t, trace (main w argv fuel)
            = t ++ [Chdir ".."; Rmtree (temp_dir_of w argv)]).
Proof.
  split_and!.
  - intros i Hi Hrc.
    assert (stages w argv fuel !! 14%nat = Some (submit_stage w argv)) as H14 by done.
    destruct (submit_jobs_cases w (nanopolish_exec_of argv) (reads_arg argv)
                (assembly_arg argv) (job_prefix_of (pid_of w)) (ranges_of w argv) O)
      as (_ & Hpoll & Hret).
    assert (¬ returned (submit_stage w argv)) as Hns.
    { intros H. by pose proof (proj1 Hret H i Hi). }
    destruct (main_raises _ _ _ _ _ H14 Hns Hpoll) as [e He]; [lia|].
    split_and!; [by exists e|by rewrite He|].
    intros ev Hev%(main_kinds_before _ _ _ _ _ _ H14 Hns). kinds_in Hev.
  - intros k e Hk Hbusy Hq.
    assert (stages w argv fuel !! 15%nat = Some (wait_stage w fuel)) as H15 by done.
    pose proof (wait_for_jobs_raised _ _ _ _ _ Hk Hbusy Hq) as Hout.
    assert (¬ returned (wait_stage w fuel)) as Hns.
    { unfold returned, wait_stage. by rewrite Hout. }
    destruct (main_raises _ _ _ _ _ H15 Hns) as [e' He']; [|lia|].
    { unfold wait_stage. by rewrite Hout. }
    split_and!; [by exists e'|by rewrite He'|].
    intros ev Hev%(main_kinds_before _ _ _ _ _ _ H15 Hns). kinds_in Hev.
  - intros Hrc.
    assert (stages w argv fuel !! 17%nat = Some (merge_stage w argv)) as H17 by done.
    assert (¬ returned (merge_stage w argv)) as Hns.
    { unfold returned. by rewrite merge_stage_eq, outcome_pair, bool_decide_false. }
    destruct (main_stopped _ _ _ _ _ H17 Hns) as (i & s & Hle & Hi & Hall & Hs & Hmain).
    split_and!.
    + unfold returned. by rewrite Hmain, outcome_pair.
    + intros ev Hev%(main_kinds_before _ _ _ _ _ _ H17 Hns) Hk.
      rewrite Hk in Hev. simpl in Hev.
      repeat (apply elem_of_cons in Hev as [?|Hev]; [done|]).
      by apply elem_of_nil in Hev.
    + intros cmd inputs [Hret Htr]%merge_reached.
      assert (i = 17%nat) as ->.
      { destruct (decide (i = 17%nat)); [done|].
        rewrite Forall_lookup in Hret. destruct Hs. apply (Hret i).
        apply lookup_take_Some. split; [done|lia]. }
      rewrite H17 in Hi. injection Hi as <-.
      rewrite Hmain, outcome_pair, trace_pair, Htr.
      rewrite merge_stage_eq, trace_pair in Htr. injection Htr as <- _.
      rewrite merge_stage_eq, outcome_pair, bool_decide_false by done.
      split_and!; [done..|]. by eexists.
  - apply main_fails_last.
  - intros Hret. split; [by rewrite Hret|].
    rewrite main_stages in *.
    destruct (run_stages_cases (stages w argv fuel))
      as [[_ ->]|(i & s & _ & _ & Hs & Hrun)].
    + rewrite trace_pair.
      change (stages w argv fuel)
        with (take 18 (stages w argv fuel)
                ++ [emit (Chdir ".."); emit (Rmtree (temp_dir_of w argv))]).
      rewrite fmap_app, join_app. by eexists.
    + rewrite Hrun in Hret. unfold returned in Hret, Hs.
      by rewrite outcome_pair in Hret.
Qed.

Lemma fatal_failures_halt_witness :
  (∃ e, outcome (main rejecting_world sample_args 3) = Raised e)
  ∧ exit_status (outcome (main rejecting_world sample_args 3)) = Some 1
  ∧ ∀ ev, ev ∈ trace (main rejecting_world sample_args 3) →
      kind_of ev ∈ [KStdout; KMkdir; KChdir; KShell].
Proof.
  apply (proj1 (fatal_failures_halt rejecting_world sample_args 3) 1%nat).
  - vm_compute. lia.
  - discriminate.
Defined.

Lemma every_range_resolved_once_witness :
  NoDup (Os.glob_polished (Os.listdir (filled_of sample_world sample_args)))
  ∧ (∀ x, x ∈ ["c:0-5"; "c:5-10"] →
       fasta_name x ∈ Os.glob_polished (Os.listdir (filled_of sample_world sample_args))
       ∧ (Os.isfile (job_files sample_world) (fasta_name x) = true
            ∧ is_Some (job_files sample_world !! fasta_name x)
            ∧ filled_of sample_world sample_args !! fasta_name x
              = job_files sample_world !! fasta_name x
          ∨ Os.isfile (job_files sample_world) (fasta_name x) = false
            ∧ ∃ s e, range_start x = Some s ∧ range_end x = Some e
                ∧ filled_of sample_world sample_args !! fasta_name x
                  = Some (placeholder x (e - s))))
  ∧ (∀ n, n ∈ Os.glob_polished (Os.listdir (filled_of sample_world sample_args)) →
       n ∈ Os.glob_polished (Os.listdir (job_files sample_world))
       ∨ ∃ x, x ∈ ["c:0-5"; "c:5-10"] ∧ n = fasta_name x)
  ∧ (["c:0-5"; "c:5-10"] ≠ [] →
       Os.expand_polished (Os.listdir (filled_of sample_world sample_args))
       = Os.glob_polished (Os.listdir (filled_of sample_world sample_args))).
Proof.
  apply (every_range_resolved_once (job_files sample_world) ["c:0-5"; "c:5-10"]
           [Stdout ("WARNING: some ranges did not complete: c:5-10" +:+ nl);
            WriteFile (fasta_name "c:5-10") (placeholder "c:5-10" 5)]).
  vm_compute. reflexivity.
Defined.

(** The sample run from start to end. *)
Example sample_run :
  outcome (main sample_world sample_args 5) = Returned tt
  ∧ exit_status (outcome (main sample_world sample_args 5)) = Some 0
  ∧ last (trace (main sample_world sample_args 5)) = Some (Rmtree "/out/7_temp_dir")
  ∧ sleeps (trace (main sample_world sample_args 5)) = [60; 60].
Proof. split_and!; vm_compute; reflexivity. Qed.


(** * Further properties of the script *)

(** ** Splitting at a character, and integers printed and read back *)
Section splitting.
Import Py.

Lemma app_nil_r_s s : s +:+ EmptyString = s.
Proof. apply chars_inj. rewrite chars_app. apply app_nil_r. Qed.

Lemma rev_involutive_s s : String.rev (String.rev s) = s.
Proof. apply chars_inj. rewrite !chars_rev. apply reverse_involutive. Qed.

Lemma split_go_nonempty sep s n : split_go sep s n ≠ [].
Proof.
  revert n. induction s as [|c s IH]; intros n; [done|].
  simpl. destruct n; [|apply IH]. destruct (startswith sep (String c s)); [done|].
  by destruct (split_go sep s 0).
Qed.

Lemma split_char_cons_other c d s :
  c ≠ d →
  ∃ h t, split (String c EmptyString) s = h :: t
       ∧ split (String c EmptyString) (String d s) = String d h :: t.
Proof.
  intros Hne. unfold split. simpl. rewrite bool_decide_false by done. simpl.
  destruct (split_go (String c EmptyString) s 0) as [|h t] eqn:Hs.
  - by apply split_go_nonempty in Hs.
  - by exists h, t.
Qed.

(** Splitting at a character distributes over a string cut at that
    character. *)
Lemma split_char_app c a b :
  split (String c EmptyString) (a +:+ String c b)
  = split (String c EmptyString) a ++ split (String c EmptyString) b.
Proof.
  induction a as [|d a IH].
  - change (EmptyString +:+ String c b) with (String c b). unfold split. simpl.
    by rewrite bool_decide_true.
  - change (String d a +:+ String c b) with (String d (a +:+ String c b)).
    destruct (decide (c = d)) as [->|Hne].
    + unfold split in *. simpl. rewrite !bool_decide_true by done. simpl.
      by rewrite IH.
    + destruct (split_char_cons_other c d (a +:+ String c b) Hne) as (h & t & H1 & ->).
      destruct (split_char_cons_other c d a Hne) as (h' & t' & H2 & ->).
      rewrite IH, H2 in H1. simpl in H1. by injection H1 as <- <-.
Qed.

Lemma last_app_nonempty (l1 l2 : list string) :
  l2 ≠ [] → last (l1 ++ l2) = last l2.
Proof.
  unfold last. intros Hne. induction l1 as [|x l1 IH]; [done|].
  simpl. destruct (l1 ++ l2) eqn:Happ; [|done].
  apply app_eq_nil in Happ as [_ ?]. done.
Qed.

(** [s.split(c)[-1]] is what follows the last [c]. *)
Lemma last_split_char c a b :
  c ∉ chars b → last (split (String c EmptyString) (a +:+ String c b)) = b.
Proof.
  intros Hb. rewrite split_char_app, last_app_nonempty by apply split_go_nonempty.
  by rewrite split_char_none.
Qed.

(** [s.split(c)[0]] is what precedes the first [c]. *)
Lemma first_split_char c a b :
  c ∉ chars a → first (split (String c EmptyString) (a +:+ String c b)) = a.
Proof. intros Ha. by rewrite split_char_cons. Qed.

Lemma join_cons_head sep d h t :
  join sep (String d h :: t) = String d (join sep (h :: t)).
Proof. by destruct t. Qed.

(** [c.join(s.split(c))] gives [s] back. *)
Lemma join_split_char c s :
  join (String c EmptyString) (split (String c EmptyString) s) = s.
Proof.
  induction s as [|d s IH]; [done|].
  destruct (decide (c = d)) as [->|Hne].
  - unfold split in *. simpl. rewrite bool_decide_true by done. simpl.
    destruct (split_go (String d EmptyString) s 0) as [|h t] eqn:Hs.
    { by apply split_go_nonempty in Hs. }
    by rewrite <- IH.
  - destruct (split_char_cons_other c d s Hne) as (h & t & H1 & ->).
    rewrite join_cons_head. by rewrite <- H1, IH.
Qed.

End splitting.

Section reading_numbers.
Import Py.

Lemma digit_pretty_N_char y : (y < 10)%N → digit (pretty_N_char y) = Some (Z.of_N y).
Proof.
  intros Hy.
  assert (y = 0 ∨ y = 1 ∨ y = 2 ∨ y = 3 ∨ y = 4 ∨ y = 5 ∨ y = 6 ∨ y = 7
          ∨ y = 8 ∨ y = 9)%N as H by lia.
  repeat (destruct H as [->|H]; [done|]). by subst.
Qed.

(** Reading the digits [str] prints for a positive number adds the number to
    what was read before, shifted. *)
Lemma int_digits_pretty_N_go x :
  (0 < x)%N →
  ∃ k : Z, 0 ≤ k ∧ ∀ s acc b,
    int_digits (pretty_N_go x s) acc b = int_digits s (acc * 10 ^ k + Z.of_N x) true.
Proof.
  induction (N.lt_wf_0 x) as [x _ IH]. intros Hx.
  assert (digit (pretty_N_char (x `mod` 10)) = Some (Z.of_N (x `mod` 10))) as Hd.
  { apply digit_pretty_N_char. by apply N.mod_lt. }
  destruct (decide (x `div` 10 = 0)%N) as [H0|H0].
  - exists 1. split; [lia|]. intros s acc b.
    rewrite pretty_N_go_step, H0, pretty_N_go_0 by done. simpl. rewrite Hd.
    assert (x `mod` 10 = x)%N as ->.
    { rewrite (N.div_mod x 10) at 2 by done. rewrite H0. lia. }
    f_equal. lia.
  - destruct (IH (x `div` 10)%N) as (k & Hk & Hread).
    { apply N.div_lt; lia. }
    { by apply N.neq_0_lt_0. }
    exists (k + 1). split; [lia|]. intros s acc b.
    rewrite pretty_N_go_step, Hread by done. simpl. rewrite Hd. f_equal.
    rewrite Z.pow_add_r, Z.pow_1_r by lia.
    rewrite (N.div_mod x 10) at 3 by done. lia.
Qed.

Lemma lstrip_no_space t :
  Forall (λ c, is_space c = false) (chars t) → lstrip t = t.
Proof.
  destruct t as [|c t]; [done|]. simpl. intros [-> _]%Forall_cons. done.
Qed.

Lemma strip_no_space t :
  Forall (λ c, is_space c = false) (chars t) → strip t = t.
Proof.
  intros H. unfold strip. rewrite (lstrip_no_space t H), lstrip_no_space.
  - apply rev_involutive_s.
  - rewrite chars_rev. by apply Forall_reverse.
Qed.

Lemma is_digit_no_space c : is_digit c → is_space c = false.
Proof.
  unfold is_digit, is_space. intros H. apply not_true_is_false.
  rewrite orb_true_iff, !andb_true_iff, !N.leb_le. lia.
Qed.

(** A string of digits is read as its digits: no sign, nothing stripped. *)
Lemma int_digits_only t :
  Forall is_digit (chars t) → int t = int_digits t 0 false.
Proof.
  intros H. unfold int. rewrite strip_no_space.
  - destruct t as [|c t]; [done|]. simpl in H. apply Forall_cons in H as [Hc _].
    unfold is_digit, code in Hc.
    destruct c as [[] [] [] [] [] [] [] []]; try done; simpl in Hc; lia.
  - eapply Forall_impl; [done|]. apply is_digit_no_space.
Qed.

(** [int(str(n)) == n] for a natural number. *)
Lemma int_str_N n : int (str (Z.of_N n)) = Some (Z.of_N n).
Proof.
  destruct (str_N_digits n) as [Hd _]. rewrite int_digits_only by done.
  destruct n as [|p]; [done|].
  change (Z.of_N (N.pos p)) with (Z.pos p).
  unfold str, pretty, pretty_Z, pretty, pretty_positive, pretty, pretty_N.
  rewrite decide_False by done.
  destruct (int_digits_pretty_N_go (N.pos p)) as (k & _ & ->); [lia|].
  simpl. f_equal.
Qed.

End reading_numbers.

(** ** Range identifiers read back *)

Lemma digits_lack c (d : string) :
  ¬ is_digit c → Forall is_digit (Py.chars d) → c ∉ Py.chars d.
Proof. intros Hc Hd Hin. rewrite Forall_forall in Hd. by apply Hd in Hin. Qed.

Lemma range_id_read (contig : string) (start end_ : N) :
  range_start (range_id contig start end_) = Some (Z.of_N start)
  ∧ range_end (range_id contig start end_) = Some (Z.of_N end_).
Proof.
  destruct (str_N_digits start) as [Hs _]. destruct (str_N_digits end_) as [He _].
  assert (¬ is_digit ":"%char) as Hcolon by (unfold is_digit, Py.code; simpl; lia).
  assert (¬ is_digit "-"%char) as Hdash by (unfold is_digit, Py.code; simpl; lia).
  unfold range_start, range_end, range_id. split.
  - change (contig +:+ ":" +:+ Py.str (Z.of_N start) +:+ "-" +:+ Py.str (Z.of_N end_))
      with (contig +:+ String ":" (Py.str (Z.of_N start)
                                   +:+ String "-" (Py.str (Z.of_N end_)))).
    rewrite (last_split_char ":"%char).
    + rewrite (first_split_char "-"%char) by by apply digits_lack.
      apply int_str_N.
    + rewrite chars_app. intros [H|H]%elem_of_app.
      * by apply digits_lack in H.
      * simpl in H. apply elem_of_cons in H as [?|H]; [done|].
        by apply digits_lack in H.
  - assert (contig +:+ ":" +:+ Py.str (Z.of_N start) +:+ "-" +:+ Py.str (Z.of_N end_)
            = (contig +:+ ":" +:+ Py.str (Z.of_N start))
              +:+ String "-" (Py.str (Z.of_N end_))) as ->
      by (rewrite !app_assoc_s; reflexivity).
    rewrite (last_split_char "-"%char) by by apply digits_lack.
    apply int_str_N.
Qed.

(** X1. An identifier of the form [contig:start-end] is taken apart into its
    two numbers, whatever the contig is called, colons and dashes in the name
    included. *)
Theorem range_id_parsed (contig : string) (start end_ : N) :
  range_start (range_id contig start end_) = Some (Z.of_N start)
  ∧ range_end (range_id contig start end_) = Some (Z.of_N end_).
Proof. apply range_id_read. Qed.

(** ** The loop over the incomplete ranges, in closed form *)

Lemma write_placeholder_cases ws x :
  write_placeholder ws x
  = if writable x
    then ([write_event x], Returned (<[fasta_name x := placeholder_of x]> ws))
    else ([], Raised (write_error x)).
Proof.
  rewrite write_placeholder_eq.
  unfold writable, write_error, write_event, placeholder_of, Os.plain.
  destruct (range_start x) as [s|]; [|done].
  destruct (range_end x) as [e|]; [|done].
  rewrite !bool_decide_true by done.
  destruct (Py.contains (String Py.NUL EmptyString) (fasta_name x));
    destruct (Py.contains "/" (fasta_name x)); done.
Qed.

Lemma write_placeholders_closed l : ∀ ws,
  write_placeholders ws l
  = (write_event <$> writable_prefix l,
     if forallb writable l then Returned (with_placeholders ws l)
     else Raised (first_error l)).
Proof.
  induction l as [|x l IH]; intros ws; [done|].
  simpl. rewrite write_placeholder_cases. destruct (writable x); [|done].
  unfold_M. rewrite IH. simpl. by destruct (forallb writable l).
Qed.

Lemma fill_incomplete_closed ws ranges :
  fill_incomplete ws ranges
  = (warning (incomplete ws ranges)
       ++ (write_event <$> writable_prefix (incomplete ws ranges)),
     if forallb writable (incomplete ws ranges)
     then Returned (with_placeholders ws (incomplete ws ranges))
     else Raised (first_error (incomplete ws ranges))).
Proof.
  unfold fill_incomplete, warning. rewrite write_placeholders_closed.
  case_bool_decide; unfold_M; by destruct (forallb _ _).
Qed.

Lemma writable_prefix_all l : forallb writable l = true → writable_prefix l = l.
Proof.
  induction l as [|x l IH]; [done|]. simpl.
  intros [-> ?]%andb_true_iff. by rewrite IH.
Qed.






(** X4. The filler does nothing at all, no warning and no write, exactly when
    every range of the planner already has its output file. *)
Theorem filler_silent_when_complete (ws : gmap string string) (ranges : list string) :
  fill_incomplete ws ranges = ([], Returned ws)
  ↔ ∀ x, x ∈ ranges → Os.isfile ws (fasta_name x) = true.
Proof.
  rewrite fill_incomplete_closed. split.
  - intros H x Hx. destruct (Os.isfile ws (fasta_name x)) eqn:Hf; [done|].
    assert (x ∈ incomplete ws ranges) as Hin by by apply elem_of_incomplete.
    destruct (incomplete ws ranges) as [|y l]; [by apply elem_of_nil in Hin|].
    unfold warning in H. by rewrite bool_decide_false in H.
  - intros H. assert (incomplete ws ranges = []) as ->; [|done].
    destruct (incomplete ws ranges) as [|y l] eqn:Hinc; [done|].
    assert (y ∈ incomplete ws ranges) as [Hy Hf]%elem_of_incomplete
      by (rewrite Hinc; left).
    rewrite H in Hf by done. done.
Qed.

(** ** Ranges of the planner's form *)






(** ** The submission loop, in closed form *)

Lemma submit_jobs_accepted w ne rf af jp ranges : ∀ i,
  (∀ j, (j < length ranges)%nat → sbatch_rc w (i + j) = 0) →
  submit_jobs w ne rf af jp ranges i = (submit_events ne rf af jp ranges, Returned tt).
Proof.
  induction ranges as [|x ranges IH]; intros i Hrc; [done|].
  simpl submit_jobs. rewrite run_eq. fold (submission ne rf af jp x).
  rewrite bool_decide_true.
  - rewrite IH; [done|]. intros j ?.
    replace (S i + j)%nat with (i + S j)%nat by lia. apply Hrc. simpl. lia.
  - rewrite <- (Nat.add_0_r i). apply Hrc. simpl. lia.
Qed.





(** ** The planner's output read back *)

Lemma snoc_app cur c l : Py.snoc cur c +:+ l = cur +:+ String c l.
Proof. unfold Py.snoc. by rewrite app_assoc_s. Qed.

Lemma bytes_splitlines_go_line l : ∀ cur rest,
  Py.LF ∉ Py.chars l → Py.CR ∉ Py.chars l →
  Py.bytes_splitlines_go (l +:+ String Py.LF rest) cur
  = (cur +:+ l) :: Py.bytes_splitlines_go rest EmptyString.
Proof.
  induction l as [|c l IH]; intros cur rest Hlf Hcr.
  - change (EmptyString +:+ String Py.LF rest) with (String Py.LF rest).
    simpl. by rewrite app_nil_r_s.
  - change (String c l +:+ String Py.LF rest) with (String c (l +:+ String Py.LF rest)).
    simpl in Hlf, Hcr. apply not_elem_of_cons in Hlf as [? ?].
    apply not_elem_of_cons in Hcr as [? ?].
    cbn [Py.bytes_splitlines_go]. rewrite !bool_decide_false by done.
    rewrite IH by done. by rewrite snoc_app.
Qed.

Lemma range_line_spec l :
  range_line l = true
  ↔ (Py.LF ∉ Py.chars l) ∧ (Py.CR ∉ Py.chars l) ∧ Py.utf8_valid l = true.
Proof.
  unfold range_line, nl.
  rewrite !andb_true_iff, !negb_true_iff, <- !not_true_iff_false, !contains_char.
  tauto.
Qed.

Lemma bytes_splitlines_unlines lines :
  forallb range_line lines = true → Py.bytes_splitlines (unlines lines) = lines.
Proof.
  unfold Py.bytes_splitlines. induction lines as [|l lines IH]; [done|].
  simpl. intros [(? & ? & _)%range_line_spec ?]%andb_true_iff.
  change (l +:+ nl +:+ unlines lines) with (l +:+ String Py.LF (unlines lines)).
  rewrite bytes_splitlines_go_line by done. by rewrite IH.
Qed.

(** X8. When the planner exits with status 0 and has printed one range per
    line, each followed by a line feed, [get_nanopolish_ranges] returns these
    ranges as they are and in that order, empty lines included, having run
    nothing but the planner's command. *)
Theorem planner_output_read_back
    (w : World) (nanopolish_makerange assembly_filename : string)
    (lines : list string) :
  makerange_out w = (0, unlines lines) →
  forallb range_line lines = true →
  get_nanopolish_ranges w nanopolish_makerange assembly_filename
  = ([Shell ("python " +:+ nanopolish_makerange +:+ " " +:+ assembly_filename)],
     Returned lines).
Proof.
  intros Hout Hlines. unfold get_nanopolish_ranges, check_output.
  rewrite Hout. unfold_M. rewrite mapM_decode, bytes_splitlines_unlines by done.
  assert (forallb Py.utf8_valid lines = true) as ->; [|done].
  apply forallb_forall. intros l Hl.
  rewrite forallb_forall in Hlines. by apply Hlines, range_line_spec in Hl as (_ & _ & ?).
Qed.

Lemma planner_output_read_back_witness :
  get_nanopolish_ranges sample_world "makerange.py" "asm.fasta"
  = ([Shell "python makerange.py asm.fasta"], Returned ["c:0-5"; "c:5-10"]).
Proof.
  apply (planner_output_read_back sample_world "makerange.py" "asm.fasta"
           ["c:0-5"; "c:5-10"]); reflexivity.
Defined.

(** ** Job names *)

(** X9. The name of a job determines the run and the range it belongs to:
    two jobs with the same name have the same process id and the same
    range. *)
Theorem job_name_determines_run_and_range (p q : N) (x y : string) :
  job_name_of p x = job_name_of q y → p = q ∧ x = y.
Proof.
  unfold job_name_of, job_prefix_of. intros H.
  destruct (str_N_digits p) as [Hp _]. destruct (str_N_digits q) as [Hq _].
  rewrite !app_assoc_s in H.
  apply (f_equal Py.chars) in H. rewrite !(chars_app "Nanopolish_") in H.
  apply app_inv_head, chars_inj in H.
  assert (Py.str (Z.of_N q) = Py.str (Z.of_N p)) as Heq.
  { apply (digits_delimited _ _ x); [done..|].
    rewrite H, <- app_assoc_s. apply startswith_app. }
  split; [symmetry; by apply str_N_inj|].
  rewrite Heq in H. apply (f_equal Py.chars) in H.
  rewrite !chars_app in H. by apply app_inv_head, app_inv_head, chars_inj in H.
Qed.

Lemma job_name_determines_run_and_range_witness :
  7%N = 7%N ∧ "c:0-5" = "c:0-5".
Proof. apply job_name_determines_run_and_range. reflexivity. Defined.

(** ** The working directory of a run *)

Lemma removelast_snoc {A} (l : list A) x : removelast (l ++ [x]) = l.
Proof. apply removelast_last. Qed.

Lemma digit_start_not_slash n rest :
  Py.startswith "/" (Py.str (Z.of_N n) +:+ rest) = false.
Proof.
  destruct (str_N_digits n) as [Hd Hne].
  destruct (Py.str (Z.of_N n)) as [|c s]; [done|].
  change (String c s +:+ rest) with (String c (s +:+ rest)). simpl.
  rewrite bool_decide_false; [done|]. intros <-.
  simpl in Hd. apply Forall_cons in Hd as [Hc _].
  unfold is_digit, Py.code in Hc. simpl in Hc. lia.
Qed.

Lemma digits_then_word_no_slash n word :
  "/"%char ∉ Py.chars word → "/"%char ∉ Py.chars (Py.str (Z.of_N n) +:+ word).
Proof.
  intros Hw. destruct (str_N_digits n) as [Hd _].
  rewrite chars_app. intros [H|H]%elem_of_app; [|done].
  apply digits_lack in H; [done| |done]. unfold is_digit, Py.code. simpl. lia.
Qed.

Lemma dirname_child a b :
  a = "/" ∨ Py.endswith "/" a = false →
  Py.startswith "/" b = false → "/"%char ∉ Py.chars b →
  Os.dirname (Os.path_join a b) = a.
Proof.
  intros Ha Hb Hslash. unfold Os.path_join, Os.dirname. rewrite Hb.
  destruct Ha as [->|Ha].
  - change (bool_decide ("/" = EmptyString) || Py.endswith "/" "/") with true.
    cbn [orb]. change ("/" +:+ b) with (EmptyString +:+ String "/" b).
    rewrite split_char_app, (split_char_none "/"%char b) by done.
    change (Py.split "/" EmptyString ++ [b]) with ([EmptyString] ++ [b]).
    rewrite removelast_snoc. reflexivity.
  - rewrite Ha, orb_false_r. destruct (decide (a = EmptyString)) as [->|Hne].
    + rewrite (bool_decide_true (EmptyString = EmptyString)) by done.
      change (EmptyString +:+ b) with b.
      rewrite (split_char_none "/"%char b) by done.
      change (removelast [b]) with (@nil string). cbn [Py.join].
      by rewrite Hb, andb_false_r.
    + rewrite (bool_decide_false (a = EmptyString)) by done.
      change (a +:+ "/" +:+ b) with (a +:+ String "/" b).
      rewrite split_char_app, (split_char_none "/"%char b) by done.
      rewrite removelast_snoc, join_split_char.
      by rewrite bool_decide_false.
Qed.

Lemma temp_dir_parent w argv :
  output_arg argv = "/" ∨ Py.endswith "/" (output_arg argv) = false →
  Os.dirname (temp_dir_of w argv) = output_arg argv.
Proof.
  intros H. unfold temp_dir_of, pid_of. apply dirname_child; [done|..].
  - apply digit_start_not_slash.
  - apply digits_then_word_no_slash. simpl. rewrite list_elem_of_In. simpl.
    intuition discriminate.
Qed.

(** X10. The working directory [<pid>_temp_dir] is made directly inside the
    output directory (a normalised path, as [os.path.abspath] returns it): it
    is created exactly when the output directory exists and holds no entry of
    that name. *)
Theorem workspace_made_in_output_dir (w : World) (argv : Args) :
  output_arg argv = "/" ∨ Py.endswith "/" (output_arg argv) = false →
  Os.dirname (temp_dir_of w argv) = output_arg argv
  ∧ (Os.mkdir (host_dirs w) (temp_dir_of w argv)
       = ([Mkdir (temp_dir_of w argv)], Returned tt)
     ↔ output_arg argv ∈ host_dirs w ∧ temp_dir_of w argv ∉ host_dirs w).
Proof.
  intros H. pose proof (temp_dir_parent w argv H) as Hdir. split; [done|].
  rewrite mkdir_eq, Hdir.
  destruct (decide (temp_dir_of w argv ∈ host_dirs w)) as [Hin|Hnin].
  - rewrite bool_decide_true by done. split; [done|]. by intros [_ ?].
  - rewrite bool_decide_false by done.
    destruct (decide (output_arg argv ∈ host_dirs w)) as [Hout|Hout].
    + by rewrite bool_decide_true by done.
    + rewrite bool_decide_false by done. split; [done|]. by intros [? _].
Qed.

Lemma workspace_made_in_output_dir_witness :
  Os.dirname (temp_dir_of sample_world sample_args) = output_arg sample_args
  ∧ (Os.mkdir (host_dirs sample_world) (temp_dir_of sample_world sample_args)
       = ([Mkdir (temp_dir_of sample_world sample_args)], Returned tt)
     ↔ output_arg sample_args ∈ host_dirs sample_world
       ∧ temp_dir_of sample_world sample_args ∉ host_dirs sample_world).
Proof. apply workspace_made_in_output_dir. right. reflexivity. Defined.

(** X11. Two runs into the same output directory never share a working
    directory unless they have the same process id. *)
Theorem workspaces_of_two_runs_differ (w w' : World) (argv argv' : Args) :
  output_arg argv = output_arg argv' →
  temp_dir_of w argv = temp_dir_of w' argv' →
  getpid w = getpid w'.
Proof.
  unfold temp_dir_of, pid_of, Os.path_join. intros <-.
  rewrite !digit_start_not_slash.
  destruct (bool_decide (output_arg argv = EmptyString)
            || Py.endswith "/" (output_arg argv)); intros H;
    apply (f_equal Py.chars) in H; rewrite !chars_app in H;
    repeat apply app_inv_head in H; apply app_inv_tail in H;
    by apply chars_inj, str_N_inj in H.
Qed.

Lemma workspaces_of_two_runs_differ_witness :
  getpid sample_world = getpid quiet_world.
Proof.
  apply (workspaces_of_two_runs_differ sample_world quiet_world sample_args sample_args);
    reflexivity.
Defined.

(** ** The name of the assembly *)

Lemma split_char_parts c s x :
  x ∈ Py.split (String c EmptyString) s → c ∉ Py.chars x.
Proof.
  revert x. induction s as [|d s IH]; intros x.
  - intros ->%list_elem_of_singleton. apply not_elem_of_nil.
  - destruct (decide (c = d)) as [->|Hne].
    + unfold Py.split in *. simpl. rewrite bool_decide_true by done. simpl.
      intros [->|H]%elem_of_cons; [apply not_elem_of_nil|by apply IH].
    + destruct (split_char_cons_other c d s Hne) as (h & t & H1 & ->).
      rewrite H1 in IH. intros [->|H]%elem_of_cons.
      * simpl. apply not_elem_of_cons. split; [done|]. apply IH. by left.
      * apply IH. by right.
Qed.

Lemma last_elem_of (l : list string) : l ≠ [] → Py.last l ∈ l.
Proof.
  unfold Py.last. induction l as [|x l IH]; [done|]. intros _.
  destruct l as [|y l]; [by left|]. right. by apply IH.
Qed.

(** [s.split(sep)[0]] is the beginning of [s]. *)
Lemma first_split_prefix sep s :
  Py.chars (Py.first (Py.split sep s)) `prefix_of` Py.chars s.
Proof.
  unfold Py.split. induction s as [|c s IH]; [done|].
  cbn [Py.split_go]. destruct (Py.startswith sep (String c s)).
  - apply prefix_nil.
  - destruct (Py.split_go sep s 0) as [|h t]; simpl in *.
    + apply prefix_cons, prefix_nil.
    + by apply prefix_cons.
Qed.

(** Without an occurrence of the separator nothing is split off. *)
Lemma split_absent sep s : Py.contains sep s = false → Py.split sep s = [s].
Proof.
  unfold Py.split. induction s as [|c s IH]; [done|].
  cbn [Py.contains Py.split_go].
  intros [-> Hs]%orb_false_iff. by rewrite IH.
Qed.

(** [.fasta] does not overlap itself: its first occurrence in a name that
    is followed by [.fasta] starts where the name ends. *)
Lemma fasta_not_early name rest :
  name ≠ EmptyString → Py.contains ".fasta" name = false →
  Py.startswith ".fasta" (name +:+ ".fasta" +:+ rest) = false.
Proof.
  intros Hne Hc. apply not_true_is_false. intros H.
  change (".fasta" +:+ rest)
    with (String "." (String "f" (String "a" (String "s" (String "t"
           (String "a" rest)))))) in H.
  destruct name as [|c1 [|c2 [|c3 [|c4 [|c5 [|c6 name]]]]]]; [done|..];
    repeat match type of H with
           | context [String ?c ?s +:+ ?t] =>
               change (String c s +:+ t) with (String c (s +:+ t)) in H
           | context [EmptyString +:+ ?t] => change (EmptyString +:+ t) with t in H
           end;
    cbn [Py.startswith] in H;
    rewrite !andb_true_iff, !bool_decide_eq_true in H;
    destruct H as (H1 & H2 & H3 & H4 & H5 & H6 & _); try discriminate.
  subst. rewrite (proj2 (contains_occurs ".fasta" _)) in Hc; [done|].
  exists [], (Py.chars name). reflexivity.
Qed.

Lemma first_split_fasta name rest :
  Py.contains ".fasta" name = false →
  Py.first (Py.split ".fasta" (name +:+ ".fasta" +:+ rest)) = name.
Proof.
  unfold Py.split. induction name as [|c name IH]; intros Hc.
  - change (EmptyString +:+ ".fasta" +:+ rest) with (String "." ("fasta" +:+ rest)).
    cbn [Py.split_go].
    change (String "." ("fasta" +:+ rest)) with (".fasta" +:+ rest).
    by rewrite startswith_app.
  - pose proof (fasta_not_early (String c name) rest) as Hearly.
    change (String c name +:+ ".fasta" +:+ rest)
      with (String c (name +:+ ".fasta" +:+ rest)) in *.
    cbn [Py.split_go]. rewrite Hearly by done.
    cbn [Py.contains] in Hc. apply orb_false_iff in Hc as [_ Hc].
    specialize (IH Hc).
    destruct (Py.split_go ".fasta" (name +:+ ".fasta" +:+ rest) 0) as [|h t];
      simpl in *; by rewrite IH.
Qed.

(** X12. The set name is what precedes the first [.fasta] in the file name
    of the assembly, the directories left out; it is the whole file name when
    there is no [.fasta] in it. *)
Theorem set_name_is_file_name_stem (argv : Args) (dir name tail : string) :
  assembly_arg argv = dir +:+ "/" +:+ name +:+ tail →
  Py.contains "/" (name +:+ tail) = false →
  Py.contains ".fasta" name = false →
  tail = EmptyString ∨ Py.startswith ".fasta" tail = true →
  set_name_of argv = name.
Proof.
  unfold set_name_of. intros -> Hslash Hname Htail.
  change (dir +:+ "/" +:+ name +:+ tail) with (dir +:+ String "/" (name +:+ tail)).
  rewrite (last_split_char "/"%char).
  - destruct Htail as [->|Htail].
    + rewrite app_nil_r_s, split_absent by done. done.
    + apply startswith_prefix in Htail as [k Hk].
      assert (tail = ".fasta" +:+ Py.of_chars k) as ->.
      { apply chars_inj. by rewrite chars_app, chars_of_chars. }
      by apply first_split_fasta.
  - intros H%contains_char. congruence.
Qed.

Lemma set_name_is_file_name_stem_witness : set_name_of sample_args = "asm".
Proof.
  apply (set_name_is_file_name_stem sample_args "/data" "asm" ".fasta");
    [reflexivity..|right; reflexivity].
Defined.

(** X13. The set name never holds a slash, whatever the path of the
    assembly: the merged assembly [../<set name>.fasta] is written directly
    into the parent of the working directory. *)
Theorem set_name_has_no_slash (argv : Args) :
  Py.contains "/" (set_name_of argv) = false.
Proof.
  apply not_true_is_false. intros H%contains_char. unfold set_name_of in H.
  pose proof (first_split_prefix ".fasta" (Py.last (Py.split "/" (assembly_arg argv))))
    as [k Hk].
  assert ("/"%char ∈ Py.chars (Py.last (Py.split "/" (assembly_arg argv)))) as Hin.
  { rewrite Hk. apply elem_of_app. by left. }
  revert Hin. apply split_char_parts with (s := assembly_arg argv).
  apply last_elem_of, split_go_nonempty.
Qed.

(** ** A run from start to end *)

Lemma run_stages_returned l : returned (run_stages l) ↔ Forall returned l.
Proof.
  destruct (run_stages_cases l) as [[Hall Hrun]|(i & s & Hi & _ & Hs & Hrun)].
  - split; [done|]. intros _. unfold returned. by rewrite Hrun.
  - split.
    + unfold returned. rewrite Hrun, outcome_pair. intros H. by destruct Hs.
    + intros Hall. rewrite Forall_lookup in Hall. destruct Hs. by eapply Hall.
Qed.

Lemma ranges_of_eq w argv :
  (makerange_out w).1 = 0 → forallb Py.utf8_valid (planner_lines w) = true →
  ranges_of w argv = planner_lines w.
Proof.
  intros Hrc Hvalid. unfold ranges_of, value, planner_lines in *.
  by rewrite plan_eq, outcome_pair, bool_decide_true, Hvalid.
Qed.

Lemma returned_void_int s : returned (void (int s)) ↔ is_Some (Py.int s).
Proof.
  unfold returned. rewrite outcome_void, int_eq, outcome_pair.
  destruct (Py.int s); split; try done.
Qed.

Lemma returned_mkdir host path :
  returned (Os.mkdir host path) ↔ (path ∉ host) ∧ Os.dirname path ∈ host.
Proof.
  unfold returned. rewrite mkdir_eq.
  destruct (decide (path ∈ host)).
  - rewrite bool_decide_true by done. split; [done|]. by intros [? _].
  - rewrite bool_decide_false by done. destruct (decide (Os.dirname path ∈ host)).
    + by rewrite bool_decide_true by done.
    + rewrite bool_decide_false by done. split; [done|]. by intros [_ ?].
Qed.

Lemma returned_plan w argv :
  returned (void (plan w argv))
  ↔ (makerange_out w).1 = 0 ∧ forallb Py.utf8_valid (planner_lines w) = true.
Proof.
  unfold returned, planner_lines. rewrite outcome_void, plan_eq, outcome_pair.
  case_bool_decide as Hrc.
  - destruct (forallb _ _); split; try done. by intros [_ ?].
  - split; [done|]. by intros [? _].
Qed.

Lemma returned_run command rc : returned (run command rc) ↔ rc = 0.
Proof.
  unfold returned. rewrite run_eq, outcome_pair. by case_bool_decide.
Qed.

Lemma returned_wait w jp fuel :
  returned (wait_for_jobs w jp fuel 0)
  ↔ ∃ d, (d < fuel)%nat ∧ (∀ j, (j < d)%nat → busy w jp j) ∧ idle w jp d.
Proof.
  unfold returned. split.
  - intros H. destruct (wait_for_jobs w jp fuel 0) as [t r] eqn:Hw.
    simpl in H. subst r. apply wait_for_jobs_returned in Hw as (d & ? & ? & ? & _).
    by exists d.
  - intros (d & ? & ? & ?).
    assert (wait_for_jobs w jp fuel 0
            = (polling_trace w jp d 0 ++ final_round, Returned tt)) as ->; [|done].
    apply wait_for_jobs_returned. by exists d.
Qed.

Lemma returned_fill ws ranges :
  returned (void (fill_incomplete ws ranges))
  ↔ forallb writable (incomplete ws ranges) = true.
Proof.
  unfold returned. rewrite outcome_void, fill_incomplete_closed, outcome_pair.
  by destruct (forallb _ _).
Qed.

Lemma returned_merge w argv : returned (merge_stage w argv) ↔ merge_rc w = 0.
Proof.
  unfold returned. rewrite merge_stage_eq, outcome_pair. by case_bool_decide.
Qed.

Lemma main_returned w argv fuel :
  returned (main w argv fuel)
  ↔ is_Some (Py.int (threads_arg argv))
    ∧ (temp_dir_of w argv ∉ host_dirs w)
    ∧ Os.dirname (temp_dir_of w argv) ∈ host_dirs w
    ∧ (makerange_out w).1 = 0
    ∧ forallb Py.utf8_valid (planner_lines w) = true
    ∧ align_rc w = 0 ∧ samtools_index_rc w = 0 ∧ nanopolish_index_rc w = 0
    ∧ (∀ j, (j < length (planner_lines w))%nat → sbatch_rc w j = 0)
    ∧ (∃ d, (d < fuel)%nat
          ∧ (∀ j, (j < d)%nat → busy w (job_prefix_of (pid_of w)) j)
          ∧ idle w (job_prefix_of (pid_of w)) d)
    ∧ forallb writable (incomplete (job_files w) (planner_lines w)) = true
    ∧ merge_rc w = 0.
Proof.
  rewrite main_stages, run_stages_returned. unfold stages.
  rewrite !Forall_cons, Forall_nil.
  rewrite returned_void_int, returned_mkdir, returned_plan, !returned_run,
    returned_fill, returned_merge.
  unfold wait_stage. rewrite returned_wait. unfold submit_stage.
  rewrite (proj2 (proj2 (submit_jobs_cases w _ _ _ _ _ 0%nat))).
  split.
  - intros (? & _ & [? ?] & _ & _ & _ & [Hrc Hv] & _ & _ & ? & ? & _ & ? & _ & Hsub
            & ? & Hfill & ? & _).
    rewrite (ranges_of_eq w argv Hrc Hv) in Hsub, Hfill. by split_and!.
  - intros (? & ? & ? & Hrc & Hv & ? & ? & ? & Hsub & ? & Hfill & ?).
    rewrite (ranges_of_eq w argv Hrc Hv). by split_and!.
Qed.


Lemma stages_trace_returned l :
  Forall returned l → run_stages l = (mjoin (trace <$> l), Returned tt).
Proof.
  intros Hall.
  destruct (run_stages_cases l) as [[_ ->]|(i & s & Hi & _ & Hs & _)]; [done|].
  rewrite Forall_lookup in Hall. destruct Hs. by eapply Hall.
Qed.

Lemma wait_trace_returned w jp fuel :
  returned (wait_for_jobs w jp fuel 0) →
  ∃ d, (d < fuel)%nat ∧ idle w jp d
     ∧ trace (wait_for_jobs w jp fuel 0) = polling_trace w jp d 0 ++ final_round.
Proof.
  unfold returned. destruct (wait_for_jobs w jp fuel 0) as [t r] eqn:Hw.
  simpl. intros ->. apply wait_for_jobs_returned in Hw as (d & ? & ? & ? & ->).
  by exists d.
Qed.

(** X15. What a run that returns has done, in order: the working directory
    made and entered, the planner, the alignment and the two indexing
    commands, one submission per range, the rounds of waiting, the warning
    and the placeholders of the incomplete ranges, the merge, and in the end
    the working directory left and removed. *)
Theorem successful_run_in_order (w : World) (argv : Args) (fuel : nat) :
  returned (main w argv fuel) →
  ∃ d, (d < fuel)%nat ∧ idle w (job_prefix_of (pid_of w)) d
     ∧ main w argv fuel = (success_trace w argv d, Returned tt).
Proof.
  intros Hret.
  pose proof (proj1 (main_returned w argv fuel) Hret)
    as (_ & Hnew & Hparent & Hrc & Hv & _ & _ & _ & Hsub & _ & Hfill & _).
  rewrite main_stages in *. apply run_stages_returned in Hret as Hall.
  rewrite (stages_trace_returned _ Hall).
  assert (returned (wait_stage w fuel)) as Hwait.
  { rewrite Forall_lookup in Hall. by apply (Hall 15%nat). }
  apply wait_trace_returned in Hwait as (d & Hd & Hidle & Hwait).
  exists d. split_and!; [done..|]. f_equal.
  unfold stages, success_trace, prologue. cbn [fmap list_fmap mjoin list_join].
  rewrite trace_void, !print_eq, !emit_eq, !run_eq, !trace_pair.
  rewrite mkdir_eq, bool_decide_false, bool_decide_true by done.
  rewrite trace_void, plan_eq, merge_stage_eq, !trace_pair.
  unfold submit_stage, filled_of, value.
  rewrite (ranges_of_eq w argv Hrc Hv).
  rewrite submit_jobs_accepted by done.
  rewrite trace_void, fill_incomplete_closed, writable_prefix_all, Hfill by done.
  unfold wait_stage in *. rewrite Hwait, int_eq, !trace_pair, outcome_pair.
  simpl. by rewrite <- !app_assoc.
Qed.

Lemma successful_run_in_order_witness :
  ∃ d, (d < 5)%nat ∧ idle sample_world (job_prefix_of (pid_of sample_world)) d
     ∧ main sample_world sample_args 5
       = (success_trace sample_world sample_args d, Returned tt).
Proof. apply successful_run_in_order. vm_compute. reflexivity. Defined.

Lemma rmtree_stage w argv fuel i s ks ev :
  stages w argv fuel !! i = Some s → stage_kinds !! i = Some ks →
  kind_of ev ∈ ks → kind_of ev = KRmtree → i = 19%nat.
Proof.
  intros _ Hks Hkind Hrm. rewrite Hrm in Hkind.
  assert (Forall2 (λ ks (i : nat), KRmtree ∈ ks → i = 19%nat)
            stage_kinds (seq 0 20)) as Hall.
  { unfold stage_kinds. simpl seq. split_stages; intros Hk; try done;
      repeat (apply elem_of_cons in Hk as [?|Hk]; [done|]);
      by apply elem_of_nil in Hk. }
  destruct (Forall2_lookup_l _ _ _ _ _ Hall Hks) as (n & Hn & Hp).
  apply lookup_seq in Hn as [-> _]. by apply Hp.
Qed.

(** X16. The only directory a run ever removes is the working directory it
    made itself, and it removes it only at the end of a run in which
    everything succeeded: after a failure of any kind the working directory
    is left behind. *)
Theorem only_own_workspace_removed
    (w : World) (argv : Args) (fuel : nat) (path : string) :
  Rmtree path ∈ trace (main w argv fuel) →
  path = temp_dir_of w argv
  ∧ Mkdir path ∈ trace (main w argv fuel)
  ∧ returned (main w argv fuel).
Proof.
  intros Hin.
  destruct (main_event _ _ _ _ Hin) as (i & s & ks & Hi & Hks & Hkind & Hev & Hall).
  assert (i = 19%nat) as -> by by eapply rmtree_stage.
  injection Hi as <-. apply list_elem_of_singleton in Hev as [= ->].
  assert (Forall returned (stages w argv fuel)) as Hret.
  { rewrite <- (take_drop 19 (stages w argv fuel)). apply Forall_app.
    split; [done|]. by repeat constructor. }
  split_and!; [done| |by rewrite main_stages, run_stages_returned].
  rewrite main_stages.
  apply (run_stages_reached _ 2 (Os.mkdir (host_dirs w) (temp_dir_of w argv)));
    [done|by apply Forall_take|].
  rewrite Forall_lookup in Hret.
  assert (returned (Os.mkdir (host_dirs w) (temp_dir_of w argv))) as Hmk
    by by apply (Hret 2%nat).
  apply returned_mkdir in Hmk as [? ?].
  rewrite mkdir_eq, bool_decide_false, bool_decide_true by done. by left.
Qed.

Lemma only_own_workspace_removed_witness :
  "/out/7_temp_dir" = temp_dir_of sample_world sample_args
  ∧ Mkdir "/out/7_temp_dir" ∈ trace (main sample_world sample_args 5)
  ∧ returned (main sample_world sample_args 5).
Proof.
  apply only_own_workspace_removed. apply list_elem_of_In. vm_compute.
  repeat (first [left; reflexivity | right]).
Defined.

(** X17. No command is run outside the working directory.  A run whose
    thread count is not an integer does nothing at all; a run whose working
    directory cannot be made has printed its banner and nothing else; every
    other run has made and entered the working directory before its first
    command, the planner. *)
Theorem run_begins_in_workspace (w : World) (argv : Args) (fuel : nat) :
  (Py.int (threads_arg argv) = None ∧ main w argv fuel = ([], Raised ValueError))
  ∨ (∃ e, (e = FileExistsError (temp_dir_of w argv)
           ∨ e = FileNotFoundError (temp_dir_of w argv))
        ∧ main w argv fuel
          = ([Stdout ((nl +:+ "Preparing to run Nanopolish for " +:+ set_name_of argv)
                      +:+ nl)],
             Raised e))
  ∨ prologue w argv `prefix_of` trace (main w argv fuel).
Proof.
  rewrite main_stages. unfold stages.
  destruct (Py.int (threads_arg argv)) as [n|] eqn:Hint.
  - right. rewrite run_stages_cons_returned
      by (unfold returned; by rewrite outcome_void, int_eq, Hint).
    rewrite trace_void, int_eq, trace_pair, app_nil_l.
    rewrite run_stages_cons_returned by done. rewrite print_eq, trace_pair.
    destruct (decide (returned (Os.mkdir (host_dirs w) (temp_dir_of w argv))))
      as [Hmk|Hmk].
    + right. rewrite (run_stages_cons_returned _ _ Hmk).
      apply returned_mkdir in Hmk as [? ?].
      rewrite mkdir_eq, bool_decide_false, bool_decide_true by done.
      do 3 (rewrite run_stages_cons_returned by done).
      rewrite print_eq, !emit_eq, !trace_pair. unfold prologue.
      destruct (decide (returned (void (plan w argv)))) as [Hp|Hp].
      * rewrite (run_stages_cons_returned _ _ Hp), trace_void, plan_eq, !trace_pair.
        simpl. by eexists.
      * rewrite (run_stages_cons_stopped _ _ Hp), trace_void, plan_eq, !trace_pair.
        simpl. by exists [].
    + left. rewrite (run_stages_cons_stopped _ _ Hmk) in *.
      revert Hmk. rewrite mkdir_eq. unfold returned.
      repeat case_bool_decide; simpl; intros Hmk; [|done|]; eexists; eauto.
  - left. split; [done|]. rewrite run_stages_cons_stopped.
    + unfold void. by rewrite int_eq, Hint.
    + unfold returned. by rewrite outcome_void, int_eq, Hint.
Qed.

(** X18. A query of the queue that fails ends the wait loop at once with the
    exception of the query: the rounds before it are those of a waiting loop,
    the last thing done is the query itself, nothing is printed after it.
    The exception is the [CalledProcessError] of a non-zero exit status, or
    [UnicodeDecodeError] for a listing that is not UTF-8. *)
Theorem monitor_stops_at_failed_query
    (w : World) (job_prefix : string) (fuel k : nat) (e : exn) :
  (k < fuel)%nat →
  (∀ j, (j < k)%nat → busy w job_prefix j) →
  query_result w job_prefix k = Raised e →
  wait_for_jobs w job_prefix fuel 0
  = (polling_trace w job_prefix k 0 ++ [Sleep 60; Shell squeue_command], Raised e)
  ∧ ((squeue_out w k).1 ≠ 0
       ∧ e = CalledProcessError (squeue_out w k).1 squeue_command
     ∨ (squeue_out w k).1 = 0 ∧ Py.decode (squeue_out w k).2 = None
       ∧ e = UnicodeDecodeError).
Proof.
  intros Hlt Hbusy Hq. split.
  - replace fuel with (k + S (fuel - S k))%nat by lia.
    rewrite wait_for_jobs_busy_prefix by (intros j ?; by apply Hbusy).
    rewrite wait_for_jobs_step. simpl. by rewrite Hq.
  - revert Hq. unfold query_result, get_remaining_nanopolish_jobs, check_output, decode.
    destruct (squeue_out w k) as [rc out]. unfold_M. simpl.
    case_bool_decide as Hrc; simpl.
    + destruct (Py.decode out); simpl; [done|]. intros [= <-]. by right.
    + intros [= <-]. by left.
Qed.

Lemma monitor_stops_at_failed_query_witness :
  wait_for_jobs unreachable_scheduler_world "Nanopolish_7_" 5 0
  = (polling_trace unreachable_scheduler_world "Nanopolish_7_" 1 0
       ++ [Sleep 60; Shell squeue_command],
     Raised (CalledProcessError 1 squeue_command))
  ∧ ((squeue_out unreachable_scheduler_world 1).1 ≠ 0
       ∧ CalledProcessError 1 squeue_command
         = CalledProcessError (squeue_out unreachable_scheduler_world 1).1 squeue_command
     ∨ (squeue_out unreachable_scheduler_world 1).1 = 0
       ∧ Py.decode (squeue_out unreachable_scheduler_world 1).2 = None
       ∧ CalledProcessError 1 squeue_command = UnicodeDecodeError).
Proof.
  apply monitor_stops_at_failed_query.
  - lia.
  - intros [|j] ?; [by exists O|lia].
  - reflexivity.
Defined.

(** ** The jobs of the run on the queue *)

Lemma contains_app_l p a s :
  Py.contains p s = true → Py.contains p (a +:+ s) = true.
Proof.
  rewrite !contains_occurs. intros (u & v & H).
  exists (Py.chars a ++ u), v. by rewrite chars_app, H, <- app_assoc.
Qed.

Lemma contains_app_r p s b :
  Py.contains p s = true → Py.contains p (s +:+ b) = true.
Proof.
  rewrite !contains_occurs. intros (u & v & H).
  exists u, (v ++ Py.chars b). by rewrite chars_app, H, <- !app_assoc.
Qed.

Lemma own_prefix_in_line pid x job_id state :
  (String.length (Py.str (Z.of_N pid)) ≤ 58)%nat →
  Py.contains (job_prefix_of (Py.str (Z.of_N pid)))
    (squeue_line (job_name_of pid x) job_id state) = true.
Proof.
  intros Hlen. unfold squeue_line, rjust, job_name_of.
  set (p := job_prefix_of (Py.str (Z.of_N pid))).
  assert (length (Py.chars p) ≤ 70)%nat as Hp.
  { unfold p, job_prefix_of. rewrite length_chars in Hlen.
    rewrite !chars_app, !length_app. simpl. lia. }
  apply contains_app_r, contains_app_l.
  apply contains_occurs.
  exists [], (take (70 - length (Py.chars p)) (Py.chars x)).
  by rewrite chars_truncate, chars_app, take_app_ge.
Qed.

(** X19. A job of the run that is on the queue is counted: the line the
    scheduler prints for it contains the prefix of the run, however long the
    range identifier is, as the 70 columns of the name field have room for
    the prefix (a process id of up to 58 digits). *)
Theorem own_job_counted
    (pid : N) (x state : string) (job_id : N) (listing : string) :
  (String.length (Py.str (Z.of_N pid)) ≤ 58)%nat →
  squeue_line (job_name_of pid x) job_id state ∈ Py.str_splitlines listing →
  squeue_line (job_name_of pid x) job_id state
    ∈ remaining_in (job_prefix_of (Py.str (Z.of_N pid))) listing.
Proof.
  intros Hlen Hin. unfold remaining_in. apply elem_of_filter_bool.
  split; [done|]. by apply own_prefix_in_line.
Qed.

Lemma own_job_counted_witness :
  squeue_line (job_name_of 7 "c:0-5") 11 "RUNNING"
    ∈ remaining_in (job_prefix_of (Py.str (Z.of_N 7)))
        (queue_header +:+ squeue_line (job_name_of 7 "c:0-5") 11 "RUNNING" +:+ nl).
Proof.
  apply own_job_counted.
  - vm_compute. lia.
  - apply list_elem_of_In. vm_compute. right. left. reflexivity.
Defined.

(** ** Placeholders in a run *)

(** X20. A run writes no file of its own before the queue has shown no job
    of the run left, and what it writes then are placeholders only: each
    write goes to the file of a range the planner printed, under a name the
    working directory did not hold when the wait ended. *)
Theorem placeholders_written_after_the_wait
    (w : World) (argv : Args) (fuel : nat) (name content : string) :
  WriteFile name content ∈ trace (main w argv fuel) →
  (∃ d, (d < fuel)%nat
      ∧ (∀ j, (j < d)%nat → busy w (job_prefix_of (pid_of w)) j)
      ∧ idle w (job_prefix_of (pid_of w)) d)
  ∧ ∃ x, x ∈ planner_lines w ∧ name = fasta_name x ∧ job_files w !! name = None.
Proof.
  intros Hin.
  destruct (main_event _ _ _ _ Hin) as (i & s & ks & Hi & Hks & Hkind & Hev & Hall).
  assert (i = 16%nat) as ->.
  { assert (Forall2 (λ ks (i : nat), KWrite ∈ ks → i = 16%nat)
              stage_kinds (seq 0 20)) as Hkinds.
    { unfold stage_kinds. simpl seq. split_stages; intros Hk; try done;
        repeat (apply elem_of_cons in Hk as [?|Hk]; [done|]);
        by apply elem_of_nil in Hk. }
    destruct (Forall2_lookup_l _ _ _ _ _ Hkinds Hks) as (n & Hn & Hp).
    apply lookup_seq in Hn as [-> _]. by apply Hp. }
  injection Hi as <-. rewrite Forall_lookup in Hall.
  assert (returned (wait_stage w fuel)) as Hwait by by apply (Hall 15%nat).
  assert (returned (void (plan w argv))) as [Hrc Hv]%returned_plan
    by by apply (Hall 6%nat).
  split; [by apply returned_wait|].
  rewrite trace_void, (ranges_of_eq w argv Hrc Hv) in Hev.
  apply fill_incomplete_trace, write_placeholders_trace in Hev
    as (x & [Hx Hfile]%elem_of_incomplete & -> & Hplain).
  exists x. split_and!; [done..|]. by apply isfile_false_plain.
Qed.

Lemma placeholders_written_after_the_wait_witness :
  (∃ d, (d < 5)%nat
      ∧ (∀ j, (j < d)%nat → busy sample_world (job_prefix_of (pid_of sample_world)) j)
      ∧ idle sample_world (job_prefix_of (pid_of sample_world)) d)
  ∧ ∃ x, x ∈ planner_lines sample_world
       ∧ "polished.c:5-10.fa" = fasta_name x
       ∧ job_files sample_world !! "polished.c:5-10.fa" = None.
Proof.
  apply (placeholders_written_after_the_wait sample_world sample_args 5
           "polished.c:5-10.fa" (placeholder "c:5-10" 5)).
  apply list_elem_of_In. vm_compute.
  repeat (first [left; reflexivity | right]).
Defined.
